(** * Void Drifter: the physics, entity and weapon core, embedded in Rocq

    A shallow embedding of [utils.js], the physics engine, [entities.js],
    [weapons.js], the enemy classes and the wave and collision logic of the
    game loop, followed by the properties of the specification and by
    further properties of the code.

    Number model.  A JavaScript number is embedded as a real number of the
    Standard Library: [+], [-], [*], [/], [Math.sqrt], [Math.cos],
    [Math.sin], [Math.PI] and [Math.floor] are the operations of [R].
    Rounding, [NaN] and the infinities are not part of this model; the
    source divides by a mass, which [createPhysicsComponent] never leaves at
    zero, and by lengths it has compared with zero before.  The properties
    stated on it are comparisons, case distinctions and equations whose two
    sides are the source's own sequence of operations.  Where a property
    depends on how a sum or a distance is rounded (the velocity sum across
    a collision, the distance of an asteroid fragment from its parent) the
    code is embedded a second time, over the primitive binary64 numbers, in
    the module [Binary64].

    A field that may be [undefined] or [null] is an [option]; the operator
    [||] on a number is [JS.or], which takes the right operand when the left
    one is missing or zero.

    Objects are records, a method is a function from the receiver (and the
    other objects it writes to) to their new values, [Date.now()] is an
    argument [now], and [Math.random()] reads the next element of a random
    source threaded through the [Rand] monad.  Fields that only serve the
    canvas rendering (colours, line width, glow, alpha) are left out. *)

From Stdlib Require Import PrimFloat.
From Stdlib Require Import Reals Lra Lia ZArith String Bool List.
Import ListNotations.
Open Scope R_scope.

(* The decimal literals of the source are read as the nearest binary64
   number, as JavaScript reads them. *)
Set Warnings "-inexact-float".

(** ** JavaScript truthiness of numbers *)

Module JS.

(** [v] is truthy: a number other than zero. *)
Definition truthy (v : R) : bool :=
if Req_dec_T v 0 then false else true.

(** [o || d] for a numeric, possibly missing, left operand. *)
Definition or (o : option R) (d : R) : R :=
match o with
| Some v => if Req_dec_T v 0 then d else v
| None => d
end.

(** [o || null]: a falsy number becomes [null]. *)
Definition orNull (o : option R) : option R :=
match o with
| Some v => if Req_dec_T v 0 then None else Some v
| None => None
end.

(** [o || false] for a boolean option field. *)
Definition orFalse (o : option bool) : bool :=
match o with
| Some b => b
| None => false
end.

(** [array[i]] for an integer index: [undefined] outside the array. *)
Definition index {A : Type} (array : list A) (i : Z) : option A :=
if (i <? 0)%Z then None else nth_error array (Z.to_nat i).

End JS.

(** ** Vectors: the [{x, y}] object literals *)

Module Vec.

Record t : Type := mk { x : R; y : R }.

Definition zero : t := mk 0 0.

End Vec.

(** ** The random source read by [Math.random] *)

Record RandState : Type := mkRandState {
  source : nat -> R;
  next : nat
}.

Definition Rand (A : Type) : Type := RandState -> A * RandState.

Definition ret {A : Type} (a : A) : Rand A := fun s => (a, s).

Definition bind {A B : Type} (m : Rand A) (k : A -> Rand B) : Rand B :=
fun s => let (a, s') := m s in k a s'.

Notation "x <- m ;; k" := (bind m (fun x => k))
  (at level 61, m at next level, right associativity).

(** [Math.random()]: the next element of the source. *)
Definition Math_random : Rand R :=
fun s => (source s (next s), mkRandState (source s) (S (next s))).

(** Every value the source gives lies in [[0, 1)], as [Math.random] promises. *)
Definition fair (s : RandState) : Prop :=
forall n, 0 <= source s n < 1.

(** ** utils.js *)

Module Utils.

Definition clamp (value min max : R) : R := Rmin (Rmax value min) max.

Definition distance (x1 y1 x2 y2 : R) : R :=
let dx := x2 - x1 in
let dy := y2 - y1 in
sqrt (dx * dx + dy * dy).

Definition random (min max : R) : Rand R :=
r <- Math_random ;; ret (r * (max - min) + min).

(** [Math.floor] is [Int_part]; both bounds are integer literals at every
    call, so the result is kept as an integer. *)
Definition randomInt (min max : Z) : Rand Z :=
r <- Math_random ;; ret (Int_part (r * IZR (max - min + 1)) + min)%Z.

(** [array[Math.floor(Math.random() * array.length)]] *)
Definition randomChoice {A : Type} (array : list A) : Rand (option A) :=
r <- Math_random ;; ret (JS.index array (Int_part (r * INR (length array)))).

Definition wrapPosition (x y width height : R) : Vec.t :=
let newX := if Rlt_dec x 0 then width
            else if Rgt_dec x width then 0 else x in
let newY := if Rlt_dec y 0 then height
            else if Rgt_dec y height then 0 else y in
Vec.mk newX newY.

Definition circleCollision (x1 y1 r1 x2 y2 r2 : R) : bool :=
if Rle_dec (distance x1 y1 x2 y2) (r1 + r2) then true else false.

Module vector.

Definition fromAngle (angle magnitude : R) : Vec.t :=
Vec.mk (cos angle * magnitude) (sin angle * magnitude).

Definition add (v1 v2 : Vec.t) : Vec.t :=
Vec.mk (Vec.x v1 + Vec.x v2) (Vec.y v1 + Vec.y v2).

Definition multiply (v : Vec.t) (scalar : R) : Vec.t :=
Vec.mk (Vec.x v * scalar) (Vec.y v * scalar).

Definition magnitude (v : Vec.t) : R :=
sqrt (Vec.x v * Vec.x v + Vec.y v * Vec.y v).

Definition normalize (v : Vec.t) : Vec.t :=
let mag := magnitude v in
if Req_dec_T mag 0 then Vec.zero
else Vec.mk (Vec.x v / mag) (Vec.y v / mag).

End vector.

(** [Utils.performance.timer] *)
Module timer.

Record t : Type := mk {
  duration : R;
  elapsed : R;
  active : bool
}.

Definition new (duration : R) : t := mk duration 0 false.

Definition start (this : t) : t := mk (duration this) 0 true.

(** [update]: the timer after the call and whether it has just run out. *)
Definition update (this : t) (deltaTime : R) : t * bool :=
if negb (active this) then (this, false) else
let elapsed' := elapsed this + deltaTime in
if Rge_dec elapsed' (duration this)
then (mk (duration this) elapsed' false, true)
else (mk (duration this) elapsed' true, false).

Definition getProgress (this : t) : R :=
if active this then elapsed this / duration this else 0.

Definition getRemainingTime (this : t) : R :=
if active this then Rmax 0 (duration this - elapsed this) else 0.

End timer.

End Utils.

(** ** Physics components *)

Module PhysicsComponent.

Record t : Type := mk {
  mass : R;
  velocity : Vec.t;
  acceleration : Vec.t;
  force : Vec.t;
  damping : R;
  maxVelocity : option R;
  collisionRadius : R;
  restitution : R;
  screenWrap : bool;
  isStatic : bool
}.

(** The [options] argument of [createPhysicsComponent]: every key may be
    absent. *)
Record options : Type := mkOptions {
  o_mass : option R;
  o_damping : option R;
  o_maxVelocity : option R;
  o_collisionRadius : option R;
  o_restitution : option R;
  o_screenWrap : option bool;
  o_isStatic : option bool
}.

(** [{}] *)
Definition noOptions : options :=
mkOptions None None None None None None None.

Definition setVelocity (p : t) (v : Vec.t) : t :=
mk (mass p) v (acceleration p) (force p) (damping p) (maxVelocity p)
   (collisionRadius p) (restitution p) (screenWrap p) (isStatic p).

Definition setAcceleration (p : t) (a : Vec.t) : t :=
mk (mass p) (velocity p) a (force p) (damping p) (maxVelocity p)
   (collisionRadius p) (restitution p) (screenWrap p) (isStatic p).

Definition setForce (p : t) (f : Vec.t) : t :=
mk (mass p) (velocity p) (acceleration p) f (damping p) (maxVelocity p)
   (collisionRadius p) (restitution p) (screenWrap p) (isStatic p).

End PhysicsComponent.

(** [PhysicsEngine.createPhysicsComponent], a static method: it is declared
    ahead of the engine because the [Entity] constructor calls it. *)
Definition createPhysicsComponent (options : PhysicsComponent.options)
  : PhysicsComponent.t :=
PhysicsComponent.mk
  (JS.or (PhysicsComponent.o_mass options) 1)
  Vec.zero
  Vec.zero
  Vec.zero
  (JS.or (PhysicsComponent.o_damping options) 0.99)
  (JS.orNull (PhysicsComponent.o_maxVelocity options))
  (JS.or (PhysicsComponent.o_collisionRadius options) 0)
  (JS.or (PhysicsComponent.o_restitution options) 0.8)
  (match PhysicsComponent.o_screenWrap options with
   | Some false => false
   | _ => true
   end)
  (JS.orFalse (PhysicsComponent.o_isStatic options)).

(** ** The base entity *)

Module HealthComponent.

Record t : Type := mk {
  current : R;
  max : R;
  invulnerable : bool;
  invulnerabilityTime : R
}.

End HealthComponent.

Module Entity.

Record t : Type := mk {
  x : R;
  y : R;
  rotation : R;
  scale : R;
  alive : bool;
  type : string;
  physics : option PhysicsComponent.t;
  health : option HealthComponent.t;
  animationTime : R;
  pulseSpeed : R;
  rotationSpeed : R
}.

(** The constructor's [options]; [o_health] is the [max] key of
    [options.health] when that object is present. *)
Record options : Type := mkOptions {
  o_rotation : option R;
  o_scale : option R;
  o_type : option string;
  o_physics : option PhysicsComponent.options;
  o_health : option (option R);
  o_pulseSpeed : option R;
  o_rotationSpeed : option R
}.

Definition noOptions : options :=
mkOptions None None None None None None None.

Definition new (x y : R) (options : options) : t :=
mk x y
   (JS.or (o_rotation options) 0)
   (JS.or (o_scale options) 1)
   true
   (match o_type options with
    | Some s => if String.eqb s EmptyString then "entity"%string else s
    | None => "entity"%string
    end)
   (option_map createPhysicsComponent (o_physics options))
   (option_map (fun hmax =>
      HealthComponent.mk (JS.or hmax 100) (JS.or hmax 100) false 0)
      (o_health options))
   0
   (JS.or (o_pulseSpeed options) 0)
   (JS.or (o_rotationSpeed options) 0).

Definition setPosition (e : t) (nx ny : R) : t :=
mk nx ny (rotation e) (scale e) (alive e) (type e) (physics e) (health e)
   (animationTime e) (pulseSpeed e) (rotationSpeed e).

Definition setRotation (e : t) (r : R) : t :=
mk (x e) (y e) r (scale e) (alive e) (type e) (physics e) (health e)
   (animationTime e) (pulseSpeed e) (rotationSpeed e).

Definition setAlive (e : t) (a : bool) : t :=
mk (x e) (y e) (rotation e) (scale e) a (type e) (physics e) (health e)
   (animationTime e) (pulseSpeed e) (rotationSpeed e).

Definition setPhysics (e : t) (p : option PhysicsComponent.t) : t :=
mk (x e) (y e) (rotation e) (scale e) (alive e) (type e) p (health e)
   (animationTime e) (pulseSpeed e) (rotationSpeed e).

Definition setHealth (e : t) (h : option HealthComponent.t) : t :=
mk (x e) (y e) (rotation e) (scale e) (alive e) (type e) (physics e) h
   (animationTime e) (pulseSpeed e) (rotationSpeed e).

Definition setAnimationTime (e : t) (a : R) : t :=
mk (x e) (y e) (rotation e) (scale e) (alive e) (type e) (physics e)
   (health e) a (pulseSpeed e) (rotationSpeed e).

Definition update (e : t) (deltaTime : R) : t :=
let e1 := setAnimationTime e (animationTime e + deltaTime) in
let e2 := if JS.truthy (rotationSpeed e1)
          then setRotation e1
                 (rotation e1 + rotationSpeed e1 * (deltaTime / 1000))
          else e1 in
match health e2 with
| Some h =>
  if HealthComponent.invulnerable h then
    let time := HealthComponent.invulnerabilityTime h - deltaTime in
    setHealth e2 (Some (HealthComponent.mk
      (HealthComponent.current h) (HealthComponent.max h)
      (if Rle_dec time 0 then false else true) time))
  else e2
| None => e2
end.

(** The base class's [destroy]. *)
Definition destroy (e : t) : t := setAlive e false.

(** [takeDamage] of the base class: the new entity and the returned flag. *)
Definition takeDamage (e : t) (amount : R) : t * bool :=
match health e with
| None => (e, false)
| Some h =>
  if HealthComponent.invulnerable h then (e, false)
  else
    let current := HealthComponent.current h - amount in
    if Rle_dec current 0 then
      (destroy (setHealth e (Some (HealthComponent.mk 0
         (HealthComponent.max h) (HealthComponent.invulnerable h)
         (HealthComponent.invulnerabilityTime h)))), true)
    else
      (setHealth e (Some (HealthComponent.mk current
         (HealthComponent.max h) true 500)), false)
end.

Definition heal (e : t) (amount : R) : t :=
match health e with
| None => e
| Some h =>
  setHealth e (Some (HealthComponent.mk
    (Rmin (HealthComponent.current h + amount) (HealthComponent.max h))
    (HealthComponent.max h) (HealthComponent.invulnerable h)
    (HealthComponent.invulnerabilityTime h)))
end.

Definition getCollisionRadius (e : t) : R :=
match physics e with
| Some p => PhysicsComponent.collisionRadius p
| None => 10
end.

End Entity.

(** ** The physics engine *)

Module PhysicsEngine.

Record t : Type := mk {
  width : R;
  height : R;
  gravity : Vec.t;
  damping : R
}.

(** [new PhysicsEngine(width, height)] *)
Definition new (width height : R) : t :=
mk width height Vec.zero 0.99.

(** One integration step.  The entity is returned unchanged when it has no
    physics component. *)
Definition updateEntity (this : t) (entity : Entity.t) (deltaTime : R)
  : Entity.t :=
match Entity.physics entity with
| None => entity
| Some physics =>
  let dt := deltaTime / 1000 in
  let m := PhysicsComponent.mass physics in
  let f := PhysicsComponent.force physics in
  let acc := Vec.mk (Vec.x f / m) (Vec.y f / m) in
  let v0 := PhysicsComponent.velocity physics in
  let v1 := Vec.mk (Vec.x v0 + Vec.x acc * dt) (Vec.y v0 + Vec.y acc * dt) in
  let d := JS.or (Some (PhysicsComponent.damping physics)) (damping this) in
  let v2 := Vec.mk (Vec.x v1 * d) (Vec.y v1 * d) in
  let v3 :=
    match PhysicsComponent.maxVelocity physics with
    | Some maxV =>
      if JS.truthy maxV then
        let speed := Utils.vector.magnitude v2 in
        if Rgt_dec speed maxV then
          let normalized := Utils.vector.normalize v2 in
          Vec.mk (Vec.x normalized * maxV) (Vec.y normalized * maxV)
        else v2
      else v2
    | None => v2
    end in
  let x1 := Entity.x entity + Vec.x v3 * dt in
  let y1 := Entity.y entity + Vec.y v3 * dt in
  let pos :=
    if PhysicsComponent.screenWrap physics
    then Utils.wrapPosition x1 y1 (width this) (height this)
    else Vec.mk x1 y1 in
  let physics' :=
    PhysicsComponent.setForce
      (PhysicsComponent.setVelocity
         (PhysicsComponent.setAcceleration physics acc) v3)
      Vec.zero in
  Entity.setPhysics (Entity.setPosition entity (Vec.x pos) (Vec.y pos))
    (Some physics')
end.

Definition applyForce (entity : Entity.t) (forceX forceY : R) : Entity.t :=
match Entity.physics entity with
| None => entity
| Some physics =>
  let f := PhysicsComponent.force physics in
  Entity.setPhysics entity (Some (PhysicsComponent.setForce physics
    (Vec.mk (Vec.x f + forceX) (Vec.y f + forceY))))
end.

Definition applyThrust (entity : Entity.t) (thrust : R) : Entity.t :=
match Entity.physics entity with
| None => entity
| Some _ =>
  let thrustVector := Utils.vector.fromAngle (Entity.rotation entity) thrust in
  applyForce entity (Vec.x thrustVector) (Vec.y thrustVector)
end.

Definition checkCollision (entity1 entity2 : Entity.t) : bool :=
match Entity.physics entity1, Entity.physics entity2 with
| Some p1, Some p2 =>
  if negb (JS.truthy (PhysicsComponent.collisionRadius p1))
     || negb (JS.truthy (PhysicsComponent.collisionRadius p2))
  then false
  else Utils.circleCollision
         (Entity.x entity1) (Entity.y entity1)
         (PhysicsComponent.collisionRadius p1)
         (Entity.x entity2) (Entity.y entity2)
         (PhysicsComponent.collisionRadius p2)
| _, _ => false
end.

(** The elastic bounce of two entities: both are written to, so both are
    returned. *)
Definition handleCollision (entity1 entity2 : Entity.t)
  : Entity.t * Entity.t :=
if negb (checkCollision entity1 entity2) then (entity1, entity2) else
match Entity.physics entity1, Entity.physics entity2 with
| Some p1, Some p2 =>
  let dx := Entity.x entity2 - Entity.x entity1 in
  let dy := Entity.y entity2 - Entity.y entity1 in
  let distance := sqrt (dx * dx + dy * dy) in
  if Req_dec_T distance 0 then (entity1, entity2) else
  let nx := dx / distance in
  let ny := dy / distance in
  let overlap :=
    (PhysicsComponent.collisionRadius p1
     + PhysicsComponent.collisionRadius p2) - distance in
  let separation := overlap / 2 in
  let e1 := if Rgt_dec overlap 0
            then Entity.setPosition entity1
                   (Entity.x entity1 - nx * separation)
                   (Entity.y entity1 - ny * separation)
            else entity1 in
  let e2 := if Rgt_dec overlap 0
            then Entity.setPosition entity2
                   (Entity.x entity2 + nx * separation)
                   (Entity.y entity2 + ny * separation)
            else entity2 in
  let v1 := PhysicsComponent.velocity p1 in
  let v2 := PhysicsComponent.velocity p2 in
  let relativeVelocityX := Vec.x v2 - Vec.x v1 in
  let relativeVelocityY := Vec.y v2 - Vec.y v1 in
  let velocityAlongNormal :=
    relativeVelocityX * nx + relativeVelocityY * ny in
  if Rgt_dec velocityAlongNormal 0 then (e1, e2) else
  let restitution :=
    Rmin (JS.or (Some (PhysicsComponent.restitution p1)) 0.8)
         (JS.or (Some (PhysicsComponent.restitution p2)) 0.8) in
  let impulseScalar := - (1 + restitution) * velocityAlongNormal in
  let totalMass := PhysicsComponent.mass p1 + PhysicsComponent.mass p2 in
  let impulse := impulseScalar / totalMass in
  let impulseX := impulse * nx in
  let impulseY := impulse * ny in
  let v1' := Vec.mk (Vec.x v1 - impulseX * PhysicsComponent.mass p2)
                    (Vec.y v1 - impulseY * PhysicsComponent.mass p2) in
  let v2' := Vec.mk (Vec.x v2 + impulseX * PhysicsComponent.mass p1)
                    (Vec.y v2 + impulseY * PhysicsComponent.mass p1) in
  (Entity.setPhysics e1 (Some (PhysicsComponent.setVelocity p1 v1')),
   Entity.setPhysics e2 (Some (PhysicsComponent.setVelocity p2 v2')))
| _, _ => (entity1, entity2)
end.

Definition createPhysicsComponent := createPhysicsComponent.

End PhysicsEngine.

(** The velocity of an entity, the zero vector when it has no physics
    component: the quantity the collision properties sum. *)
Definition velocityOf (e : Entity.t) : Vec.t :=
match Entity.physics e with
| Some p => PhysicsComponent.velocity p
| None => Vec.zero
end.

(** ** Projectiles *)

Module Projectile.

Record t : Type := mk {
  base : Entity.t;
  damage : R;
  speed : R;
  owner : option Entity.t;
  lifetime : R;
  age : R
}.

(** The keys of [options] the weapons pass: [owner] is the firing entity as
    it is at the moment of the call. *)
Record options : Type := mkOptions {
  o_rotation : option R;
  o_owner : option Entity.t;
  o_damage : option R;
  o_speed : option R;
  o_lifetime : option R;
  o_physics : option PhysicsComponent.options
}.

Definition defaultPhysics : PhysicsComponent.options :=
PhysicsComponent.mkOptions (Some 0.1) None None (Some 3) None (Some false) None.

Definition new (x y : R) (options : options) : t :=
let super :=
  Entity.new x y
    (Entity.mkOptions (o_rotation options) None (Some "projectile"%string)
       (Some (match o_physics options with
              | Some p => p
              | None => defaultPhysics
              end))
       None None None) in
let damage := JS.or (o_damage options) 25 in
let speed := JS.or (o_speed options) 300 in
let owner := o_owner options in
let lifetime := JS.or (o_lifetime options) 3000 in
let velocity := Utils.vector.fromAngle (Entity.rotation super) speed in
let ownerVelocity :=
  match owner with
  | Some o => option_map PhysicsComponent.velocity (Entity.physics o)
  | None => None
  end in
let velocity' :=
  match ownerVelocity with
  | Some ov => Vec.mk (Vec.x velocity + Vec.x ov * 0.5)
                      (Vec.y velocity + Vec.y ov * 0.5)
  | None => velocity
  end in
mk (Entity.setPhysics super
      (option_map (fun p => PhysicsComponent.setVelocity p velocity')
         (Entity.physics super)))
   damage speed owner lifetime 0.

(** The initial velocity of a freshly built projectile. *)
Definition velocity (p : t) : Vec.t := velocityOf (base p).

(** [update]; [canvasWidth] and [canvasHeight] are [game.canvas.width] and
    [game.canvas.height]. *)
Definition update (this : t) (deltaTime canvasWidth canvasHeight : R) : t :=
let super := Entity.update (base this) deltaTime in
let age' := age this + deltaTime in
let e1 := if Rge_dec age' (lifetime this) then Entity.destroy super
          else super in
let offScreen :=
  (if Rlt_dec (Entity.x e1) (-50) then true else false)
  || (if Rgt_dec (Entity.x e1) (canvasWidth + 50) then true else false)
  || (if Rlt_dec (Entity.y e1) (-50) then true else false)
  || (if Rgt_dec (Entity.y e1) (canvasHeight + 50) then true else false) in
let e2 := if offScreen then Entity.destroy e1 else e1 in
mk e2 (damage this) (speed this) (owner this) (lifetime this) age'.

End Projectile.

(** ** Asteroids *)

(** [for (let i = 0; i < n; i++) out.push(body(i))], started at [i]. *)
Fixpoint pushLoop {A : Type} (n i : nat) (body : nat -> Rand A)
  : Rand (list A) :=
match n with
| O => ret []
| S n' => a <- body i ;; rest <- pushLoop n' (S i) body ;; ret (a :: rest)
end.

Module Asteroid.

Record sizeData : Type := mkSizeData {
  sd_radius : R;
  sd_health : R;
  sd_mass : R;
  sd_maxVelocity : R;
  sd_score : R
}.

Record t : Type := mk {
  base : Entity.t;
  size : string;
  radius : R;
  points : list Vec.t;
  scoreValue : R
}.

(** [sizes[size] || sizes.large] for the three sizes of the table and for
    any other string that is not a property name of [Object.prototype]:
    the constructor and [createFragments] pass the three sizes only. *)
Definition getSizeData (size : string) : sizeData :=
let large := mkSizeData 40 100 3 80 20 in
let medium := mkSizeData 25 50 2 120 50 in
let small := mkSizeData 15 25 1 160 100 in
if String.eqb size "large" then large
else if String.eqb size "medium" then medium
else if String.eqb size "small" then small
else large.

Definition generateShape (radius : R) : Rand (list Vec.t) :=
numPoints <- Utils.randomInt 8 12 ;;
pushLoop (Z.to_nat numPoints) 0 (fun i =>
  let angle := (PI * 2 * INR i) / IZR numPoints in
  radiusVariation <- Utils.random 0.7 1.3 ;;
  let r := radius * radiusVariation in
  ret (Vec.mk (cos angle * r) (sin angle * r))).

(** [new Asteroid(x, y, size)]; every call of the source leaves the fourth
    argument, [options], out. *)
Definition new (x y : R) (size : string) : Rand t :=
let sd := getSizeData size in
rotationSpeed <- Utils.random (-2) 2 ;;
let super :=
  Entity.new x y
    (Entity.mkOptions None None (Some "asteroid"%string)
       (Some (PhysicsComponent.mkOptions (Some (sd_mass sd)) (Some 1)
                (Some (sd_maxVelocity sd)) (Some (sd_radius sd))
                None None None))
       (Some (Some (sd_health sd))) None (Some rotationSpeed)) in
points <- generateShape (sd_radius sd) ;;
angle <- Utils.random 0 (PI * 2) ;;
speed <- Utils.random 20 60 ;;
let v := Vec.mk (cos angle * speed) (sin angle * speed) in
ret (mk (Entity.setPhysics super
           (option_map (fun p => PhysicsComponent.setVelocity p v)
              (Entity.physics super)))
        size (sd_radius sd) points (sd_score sd)).

Definition createFragments (this : t) : Rand (list t) :=
if String.eqb (size this) "large" then
  count <- Utils.randomInt 2 3 ;;
  pushLoop (Z.to_nat count) 0 (fun i =>
    r <- Utils.random (-0.5) 0.5 ;;
    let angle := (PI * 2 * INR i) / IZR count + r in
    let distance := radius this * 0.5 in
    let x := Entity.x (base this) + cos angle * distance in
    let y := Entity.y (base this) + sin angle * distance in
    new x y "medium")
else if String.eqb (size this) "medium" then
  pushLoop 2 0 (fun i =>
    r <- Utils.random (-0.5) 0.5 ;;
    let angle := PI * INR i + r in
    let distance := radius this * 0.5 in
    let x := Entity.x (base this) + cos angle * distance in
    let y := Entity.y (base this) + sin angle * distance in
    new x y "small")
else ret [].

(** [destroy]: the asteroid after the call and the fragments it returns. *)
Definition destroy (this : t) : Rand (t * list t) :=
let this' := mk (Entity.destroy (base this)) (size this) (radius this)
                (points this) (scoreValue this) in
fragments <- createFragments this' ;;
ret (this', fragments).

End Asteroid.

(** ** The part of the game the weapons write to *)

Inductive GameEntity : Type :=
| GProjectile (p : Projectile.t)
| GAsteroid (a : Asteroid.t)
| GEntity (e : Entity.t).

Module Game.

(** [entities] is the entity list; [audio] is the log of the sounds asked of
    the audio manager, [None] when the game has no audio manager. *)
Record t : Type := mk {
  entities : list GameEntity;
  audio : option (list string)
}.

Definition addEntity (game : t) (entity : GameEntity) : t :=
mk (entities game ++ [entity]) (audio game).

(** [if (game.audio) game.audio.play(name)] *)
Definition play (game : t) (name : string) : t :=
mk (entities game) (option_map (fun log => log ++ [name]) (audio game)).

(** The projectiles among the entities, in the order they were added. *)
Fixpoint projectiles (l : list GameEntity) : list Projectile.t :=
match l with
| [] => []
| GProjectile p :: l' => p :: projectiles l'
| _ :: l' => projectiles l'
end.

End Game.

(** ** weapons.js *)

(** What a weapon reads of its owner: the entity and the ship's [size].  The
    weapon keeps a reference to its owner, so [fire] takes the owner as it is
    at the moment of the call. *)
Record Owner : Type := mkOwner {
  entity : Entity.t;
  size : R
}.

(** A key of a spread [{...defaults, ...options}]: the later object wins
    when it has the key. *)
Definition spread {A : Type} (default later : option A) : option A :=
match later with
| Some v => Some v
| None => default
end.

Module Weapon.

Record t : Type := mk {
  fireRate : R;
  lastFired : R;
  damage : R;
  projectileSpeed : R;
  projectileLifetime : R;
  heatPerShot : R
}.

Record options : Type := mkOptions {
  o_fireRate : option R;
  o_damage : option R;
  o_projectileSpeed : option R;
  o_projectileLifetime : option R;
  o_heatPerShot : option R
}.

Definition noOptions : options := mkOptions None None None None None.

Definition new (options : options) : t :=
mk (JS.or (o_fireRate options) 500)
   0
   (JS.or (o_damage options) 10)
   (JS.or (o_projectileSpeed options) 300)
   (JS.or (o_projectileLifetime options) 2000)
   (JS.or (o_heatPerShot options) 10).

Definition canFire (this : t) (now : R) : bool :=
if Rge_dec (now - lastFired this) (fireRate this) then true else false.

(** The base class's [fire]: it stamps the time of the shot. *)
Definition fire (this : t) (now : R) : t :=
if negb (canFire this now) then this
else mk (fireRate this) now (damage this) (projectileSpeed this)
        (projectileLifetime this) (heatPerShot this).

End Weapon.

Module Blaster.

Definition new (options : Weapon.options) : Weapon.t :=
Weapon.new (Weapon.mkOptions
  (spread (Some 200) (Weapon.o_fireRate options))
  (spread (Some 20) (Weapon.o_damage options))
  (spread (Some 400) (Weapon.o_projectileSpeed options))
  (Weapon.o_projectileLifetime options)
  (spread (Some 12) (Weapon.o_heatPerShot options))).

Definition fire (this : Weapon.t) (owner : Owner) (now : R) (game : Game.t)
  : Weapon.t * Game.t :=
if negb (Weapon.canFire this now) then (this, game) else
let this' := Weapon.fire this now in
let e := entity owner in
let projectileX := Entity.x e + cos (Entity.rotation e) * size owner in
let projectileY := Entity.y e + sin (Entity.rotation e) * size owner in
let projectile :=
  Projectile.new projectileX projectileY
    (Projectile.mkOptions (Some (Entity.rotation e)) (Some e)
       (Some (Weapon.damage this')) (Some (Weapon.projectileSpeed this'))
       (Some (Weapon.projectileLifetime this')) None) in
(this', Game.play (Game.addEntity game (GProjectile projectile)) "laser").

End Blaster.

Module PlasmaCannon.

Definition new (options : Weapon.options) : Weapon.t :=
Weapon.new (Weapon.mkOptions
  (spread (Some 800) (Weapon.o_fireRate options))
  (spread (Some 80) (Weapon.o_damage options))
  (spread (Some 250) (Weapon.o_projectileSpeed options))
  (Weapon.o_projectileLifetime options)
  (spread (Some 35) (Weapon.o_heatPerShot options))).

Definition fire (this : Weapon.t) (owner : Owner) (now : R) (game : Game.t)
  : Weapon.t * Game.t :=
if negb (Weapon.canFire this now) then (this, game) else
let this' := Weapon.fire this now in
let e := entity owner in
let projectileX := Entity.x e + cos (Entity.rotation e) * size owner in
let projectileY := Entity.y e + sin (Entity.rotation e) * size owner in
let projectile :=
  Projectile.new projectileX projectileY
    (Projectile.mkOptions (Some (Entity.rotation e)) (Some e)
       (Some (Weapon.damage this')) (Some (Weapon.projectileSpeed this'))
       (Some (Weapon.projectileLifetime this'))
       (Some (PhysicsComponent.mkOptions None None None (Some 8)
                None None None))) in
(this', Game.play (Game.addEntity game (GProjectile projectile)) "plasma").

End PlasmaCannon.

(** ** The player ship *)

Module Player.

(** The [weapon] object literal of the constructor. *)
Record weaponState : Type := mkWeapon {
  heat : R;
  maxHeat : R;
  heatPerShot : R;
  cooldownRate : R;
  overheated : bool;
  fireRate : R;
  lastFired : R
}.

(** Of the player's own fields the record keeps those that [fire] and
    [updateWeapon] read or write; the shield, the ability and the input
    flags play no part in them. *)
Record t : Type := mk {
  base : Entity.t;
  thrustPower : R;
  size : R;
  weapon : weaponState;
  autoFire : bool;
  autoRotate : bool
}.

Definition setWeapon (p : t) (w : weaponState) : t :=
mk (base p) (thrustPower p) (size p) w (autoFire p) (autoRotate p).

(** [new Player(x, y)], as every call of the source has it, without
    [options]; [rotationSpeed] is overwritten with 3 after the base
    constructor has run. *)
Definition new (x y : R) : t :=
let super :=
  Entity.new x y
    (Entity.mkOptions None None (Some "player"%string)
       (Some (PhysicsComponent.mkOptions (Some 1) (Some 0.98) (Some 300)
                (Some 12) None None None))
       (Some (Some 100)) None None) in
mk (Entity.mk (Entity.x super) (Entity.y super) (Entity.rotation super)
      (Entity.scale super) (Entity.alive super) (Entity.type super)
      (Entity.physics super) (Entity.health super)
      (Entity.animationTime super) (Entity.pulseSpeed super) 3)
   200 15
   (mkWeapon 0 100 15 30 false 200 0)
   false false.

Definition fire (this : t) (now : R) (game : Game.t) : t * Game.t :=
let w := weapon this in
if (if Rlt_dec (now - lastFired w) (fireRate w) then true else false)
   || overheated w
then (this, game) else
let heat' := heat w + heatPerShot w in
let overheated' :=
  if Rge_dec heat' (maxHeat w) then true else overheated w in
let e := base this in
let projectileX := Entity.x e + cos (Entity.rotation e) * size this in
let projectileY := Entity.y e + sin (Entity.rotation e) * size this in
let projectile :=
  Projectile.new projectileX projectileY
    (Projectile.mkOptions (Some (Entity.rotation e)) (Some e)
       (Some 25) (Some 400) None None) in
(setWeapon this
   (mkWeapon heat' (maxHeat w) (heatPerShot w) (cooldownRate w)
      overheated' (fireRate w) now),
 Game.play (Game.addEntity game (GProjectile projectile)) "laser").

(** The heat left once [updateWeapon] has cooled the weapon down. *)
Definition cooledHeat (w : weaponState) (deltaTime : R) : R :=
if Rgt_dec (heat w) 0
then Rmax 0 (heat w - cooldownRate w * (deltaTime / 1000))
else heat w.

Definition updateWeapon (this : t) (deltaTime now : R) (game : Game.t)
  : t * Game.t :=
let w := weapon this in
let heat1 := cooledHeat w deltaTime in
let overheated1 :=
  if overheated w && (if Rlt_dec heat1 (maxHeat w * 0.3) then true else false)
  then false else overheated w in
let this1 :=
  setWeapon this
    (mkWeapon heat1 (maxHeat w) (heatPerShot w) (cooldownRate w)
       overheated1 (fireRate w) (lastFired w)) in
if autoFire this1 then fire this1 now game else (this1, game).

(** The player seen as the owner of its projectiles. *)
Definition asOwner (this : t) : Owner := mkOwner (base this) (size this).

End Player.

(** ** The player's shield *)

Module Shield.

(** The [shield] object literal of the player's constructor. *)
Record t : Type := mk {
  current : R;
  max : R;
  regenRate : R;
  regenDelay : R;
  lastDamageTime : R;
  active : bool
}.

Definition initial : t := mk 50 50 10 2000 0 true.

End Shield.

(** The player's methods that work on the shield.  They read and write the
    shield and the entity part of the player only, so they are given on
    that pair. *)
Module PlayerShield.

Record t : Type := mk {
  shield : Shield.t;
  base : Entity.t
}.

(** [Player.updateShield]; [now] is [Date.now()]. *)
Definition updateShield (this : t) (deltaTime now : R) : t :=
let s := shield this in
if (if Rlt_dec (Shield.current s) (Shield.max s) then true else false)
   && (if Rgt_dec (now - Shield.lastDamageTime s) (Shield.regenDelay s)
       then true else false)
then
  mk (Shield.mk
        (Rmin (Shield.current s + Shield.regenRate s * (deltaTime / 1000))
              (Shield.max s))
        (Shield.max s) (Shield.regenRate s) (Shield.regenDelay s)
        (Shield.lastDamageTime s) (Shield.active s))
     (base this)
else this.

(** [Player.takeDamage]: the shield takes what it can before the health. *)
Definition takeDamage (this : t) (amount now : R) : t * bool :=
let s := shield this in
if Rgt_dec (Shield.current s) 0 then
  let shieldDamage := Rmin amount (Shield.current s) in
  let s' := Shield.mk (Shield.current s - shieldDamage) (Shield.max s)
              (Shield.regenRate s) (Shield.regenDelay s) now
              (Shield.active s) in
  let amount' := amount - shieldDamage in
  if Rle_dec amount' 0 then (mk s' (base this), false)
  else let (e, died) := Entity.takeDamage (base this) amount' in
       (mk s' e, died)
else let (e, died) := Entity.takeDamage (base this) amount in
     (mk s e, died).

End PlayerShield.

(** ** enemies.js: the enemy ships and their factory *)

Module Enemy.

(** One line of the loot table: the chance of a drop and the bounds of its
    amount. *)
Record lootEntry : Type := mkLoot {
  chance : R;
  amountMin : Z;
  amountMax : Z
}.

(** An enemy at construction: [target] is [null] then and is left out.
    [className] names the class that built it. *)
Record t : Type := mk {
  base : Entity.t;
  scoreValue : R;
  state : string;
  stateTimer : R;
  scrap : lootEntry;
  crystal : lootEntry;
  size : R;
  weapon : Weapon.t;
  className : string
}.

(** The base constructor, with the keys the three subclasses pass. *)
Definition new (x y : R) (health : R) (physics : PhysicsComponent.options)
  (scoreValue : option R) : Entity.t * R :=
(Entity.new x y
   (Entity.mkOptions None None (Some "enemy"%string) (Some physics)
      (Some (Some health)) None None),
 JS.or scoreValue 50).

Definition defaultScrap : lootEntry := mkLoot 0.8 5 15.

Definition defaultCrystal : lootEntry := mkLoot 0.1 1 3.

End Enemy.

Module ScoutSaucer.

Definition new (x y : R) : Enemy.t :=
let (super, score) :=
  Enemy.new x y 30
    (PhysicsComponent.mkOptions (Some 0.5) (Some 0.95) (Some 150) (Some 15)
       None None None)
    (Some 150) in
Enemy.mk super score "idle" 0 Enemy.defaultScrap Enemy.defaultCrystal 15
  (Blaster.new (Weapon.mkOptions (Some 1500) (Some 15) (Some 200) None None))
  "ScoutSaucer".

End ScoutSaucer.

Module HunterDrone.

Definition new (x y : R) : Enemy.t :=
let (super, score) :=
  Enemy.new x y 60
    (PhysicsComponent.mkOptions (Some 0.8) (Some 0.98) (Some 100) (Some 18)
       None None None)
    (Some 300) in
Enemy.mk super score "idle" 0 Enemy.defaultScrap Enemy.defaultCrystal 18
  (Blaster.new (Weapon.mkOptions (Some 1000) (Some 20) (Some 300) None None))
  "HunterDrone".

End HunterDrone.

Module MarauderFrigate.

(** The spread shot is built by the base [Weapon] constructor from the
    defaults of [SpreadShot] and the options given here. *)
Definition new (x y : R) : Enemy.t :=
let (super, score) :=
  Enemy.new x y 200
    (PhysicsComponent.mkOptions (Some 2.5) (Some 0.99) (Some 60) (Some 30)
       None None None)
    (Some 800) in
Enemy.mk super score "idle" 0 Enemy.defaultScrap Enemy.defaultCrystal 30
  (Weapon.new (Weapon.mkOptions
     (spread (Some 600) (Some 2500)) (spread (Some 15) (Some 25))
     (spread (Some 350) (Some 250)) None (spread (Some 25) None)))
  "MarauderFrigate".

End MarauderFrigate.

Module EnemyFactory.

(** [create]; the type is [None] when the caller passes [undefined]. *)
Definition create (type : option string) (x y : R) : Enemy.t :=
match type with
| Some t =>
  if String.eqb t "scout_saucer" then ScoutSaucer.new x y
  else if String.eqb t "hunter_drone" then HunterDrone.new x y
  else if String.eqb t "marauder_frigate" then MarauderFrigate.new x y
  else ScoutSaucer.new x y
| None => ScoutSaucer.new x y
end.

Definition getRandomType : Rand (option string) :=
Utils.randomChoice ["scout_saucer"; "hunter_drone"; "marauder_frigate"]%string.

End EnemyFactory.

(** ** The game loop: waves, collision dispatch and the loss of a life *)

(** What [startNextWave] adds to the entity list. *)
Inductive Spawn : Type :=
| SAsteroid (a : Asteroid.t)
| SEnemy (e : Enemy.t).

(** The handler [Game.handleCollision] calls for a pair of entities, with
    the entities in the roles the handler gives them. *)
Inductive Interaction (A : Type) : Type :=
| playerHit (player hazard : A)
| projectileHit (projectile target : A)
| pickupCollected (pickup player : A)
| bounce (entity1 entity2 : A)
| noInteraction.

Arguments playerHit {A} player hazard.
Arguments projectileHit {A} projectile target.
Arguments pickupCollected {A} pickup player.
Arguments bounce {A} entity1 entity2.
Arguments noInteraction {A}.

(** [player.physics.velocity = { x: 0, y: 0 }] *)
Definition withVelocityZero (e : Entity.t) : Entity.t :=
Entity.setPhysics e
  (option_map (fun p => PhysicsComponent.setVelocity p Vec.zero)
     (Entity.physics e)).

Module GameLoop.

(** [[a, b].sort().join('-')] on two strings. *)
Definition sortJoin (a b : string) : string :=
if String.ltb b a then (b ++ "-" ++ a)%string else (a ++ "-" ++ b)%string.

(** [handleCollision]: which handler the [switch] picks, on entities of any
    kind whose type tag [type] gives. *)
Definition handleCollision {A : Type} (type : A -> string) (e1 e2 : A)
  : Interaction A :=
let types := sortJoin (type e1) (type e2) in
if String.eqb types "asteroid-player" then
  playerHit (if String.eqb (type e1) "player" then e1 else e2)
            (if String.eqb (type e1) "asteroid" then e1 else e2)
else if String.eqb types "enemy-player" then
  playerHit (if String.eqb (type e1) "player" then e1 else e2)
            (if String.eqb (type e1) "enemy" then e1 else e2)
else if String.eqb types "asteroid-projectile"
        || String.eqb types "enemy-projectile" then
  projectileHit (if String.eqb (type e1) "projectile" then e1 else e2)
                (if negb (String.eqb (type e1) "projectile") then e1 else e2)
else if String.eqb types "pickup-player" then
  pickupCollected (if String.eqb (type e1) "pickup" then e1 else e2)
                  (if String.eqb (type e1) "player" then e1 else e2)
else if String.eqb types "asteroid-asteroid"
        || String.eqb types "asteroid-enemy"
        || String.eqb types "enemy-enemy" then
  bounce e1 e2
else noInteraction.

(** [isWaveComplete], on the type tags of the entity list. *)
Definition isWaveComplete (types : list string) : bool :=
forallb (fun t => String.eqb t "player" || String.eqb t "projectile"
                  || String.eqb t "pickup") types.

Definition spawnType (s : Spawn) : string :=
match s with
| SAsteroid a => Entity.type (Asteroid.base a)
| SEnemy e => Entity.type (Enemy.base e)
end.

(** [startNextWave]: the new wave number and the entities it adds, in the
    order of the calls of [addEntity]. *)
Definition startNextWave (wave : Z) (width height : R)
  : Rand (Z * list Spawn) :=
let wave' := (wave + 1)%Z in
let asteroidCount := (2 + wave')%Z in
asteroids <- pushLoop (Z.to_nat asteroidCount) 0 (fun _ =>
  r1 <- Math_random ;;
  let x := if Rgt_dec r1 0.5 then 0 else width in
  r2 <- Math_random ;;
  let y := r2 * height in
  a <- Asteroid.new x y "large" ;;
  ret (SAsteroid a)) ;;
enemies <- (if (wave' >? 1)%Z then
              let enemyCount := (wave' / 2)%Z in
              pushLoop (Z.to_nat enemyCount) 0 (fun _ =>
                r1 <- Math_random ;;
                let x := r1 * width in
                r2 <- Math_random ;;
                let y := if Rgt_dec r2 0.5 then 0 else height in
                type <- EnemyFactory.getRandomType ;;
                ret (SEnemy (EnemyFactory.create type x y)))
            else ret []) ;;
ret (wave', (asteroids ++ enemies)%list).

(** The part of the game [playerHit] and [playerDestroyed] read and write:
    the lives, the state and the player. *)
Record t : Type := mk {
  lives : Z;
  state : string;
  player : PlayerShield.t
}.

(** [playerDestroyed]; [width] and [height] are those of the canvas. *)
Definition playerDestroyed (this : t) (width height : R) : t :=
let lives' := (lives this - 1)%Z in
if (lives' <=? 0)%Z then mk lives' "gameover" (player this)
else
  let e := PlayerShield.base (player this) in
  let e1 := Entity.setPosition e (width / 2) (height / 2) in
  let e2 := withVelocityZero e1 in
  let hmax := match Entity.health e2 with
              | Some h => HealthComponent.max h
              | None => 0
              end in
  let e3 := Entity.heal e2 hmax in
  let e4 := match Entity.health e3 with
            | Some h =>
              Entity.setHealth e3
                (Some (HealthComponent.mk (HealthComponent.current h)
                         (HealthComponent.max h) true 3000))
            | None => e3
            end in
  mk lives' (state this) (PlayerShield.mk (PlayerShield.shield (player this)) e4).

(** [playerHit]: the hazard is not touched; [now] is [Date.now()]. *)
Definition playerHit (this : t) (width height now : R) : t :=
let (player', died) := PlayerShield.takeDamage (player this) 25 now in
let this' := mk (lives this) (state this) player' in
if died then playerDestroyed this' width height else this'.

End GameLoop.

(** ** The collision and the fragment arithmetic in binary64

    The numbers of the program are binary64 numbers, and two of the
    properties below are about sums and distances the rounding decides.
    For them [handleCollision] (with [checkCollision], [circleCollision] and
    [distance]) and the position arithmetic of [createFragments] are
    embedded once more, over the primitive binary64 numbers: every
    operation is the IEEE 754 one, in the order the source writes it.
    A physics component keeps the four fields the collision code reads. *)

Module Binary64.

Local Open Scope float_scope.

(** [Math.PI] *)
Definition PI : float := 3.141592653589793.

(** A number is truthy unless it is [0], [-0] or [NaN]. *)
Definition truthy (v : float) : bool :=
negb ((v =? 0) || PrimFloat.is_nan v).

(** [v || d] *)
Definition or (v d : float) : float := if truthy v then v else d.

(** [Math.min(a, b)]: [NaN] when an argument is, and [-0] below [0]. *)
Definition min (a b : float) : float :=
if PrimFloat.is_nan a || PrimFloat.is_nan b then PrimFloat.nan
else if a <? b then a
else if b <? a then b
else if PrimFloat.get_sign a then a else b.

Module Vec.

Record t : Type := mk { x : float; y : float }.

End Vec.

Module PhysicsComponent.

Record t : Type := mk {
  mass : float;
  velocity : Vec.t;
  collisionRadius : float;
  restitution : float
}.

Definition setVelocity (p : t) (v : Vec.t) : t :=
mk (mass p) v (collisionRadius p) (restitution p).

End PhysicsComponent.

Module Entity.

Record t : Type := mk {
  x : float;
  y : float;
  physics : option PhysicsComponent.t
}.

Definition setPosition (e : t) (nx ny : float) : t := mk nx ny (physics e).

Definition setPhysics (e : t) (p : option PhysicsComponent.t) : t :=
mk (x e) (y e) p.

End Entity.

Definition distance (x1 y1 x2 y2 : float) : float :=
let dx := x2 - x1 in
let dy := y2 - y1 in
PrimFloat.sqrt (dx * dx + dy * dy).

Definition circleCollision (x1 y1 r1 x2 y2 r2 : float) : bool :=
distance x1 y1 x2 y2 <=? r1 + r2.

(** [Utils.random(min, max)], for the value [rnd] of [Math.random()]. *)
Definition random (rnd min max : float) : float := rnd * (max - min) + min.

Definition checkCollision (entity1 entity2 : Entity.t) : bool :=
match Entity.physics entity1, Entity.physics entity2 with
| Some p1, Some p2 =>
  if negb (truthy (PhysicsComponent.collisionRadius p1))
     || negb (truthy (PhysicsComponent.collisionRadius p2))
  then false
  else circleCollision
         (Entity.x entity1) (Entity.y entity1)
         (PhysicsComponent.collisionRadius p1)
         (Entity.x entity2) (Entity.y entity2)
         (PhysicsComponent.collisionRadius p2)
| _, _ => false
end.

Definition handleCollision (entity1 entity2 : Entity.t)
  : Entity.t * Entity.t :=
if negb (checkCollision entity1 entity2) then (entity1, entity2) else
match Entity.physics entity1, Entity.physics entity2 with
| Some p1, Some p2 =>
  let dx := Entity.x entity2 - Entity.x entity1 in
  let dy := Entity.y entity2 - Entity.y entity1 in
  let distance := PrimFloat.sqrt (dx * dx + dy * dy) in
  if distance =? 0 then (entity1, entity2) else
  let nx := dx / distance in
  let ny := dy / distance in
  let overlap :=
    (PhysicsComponent.collisionRadius p1
     + PhysicsComponent.collisionRadius p2) - distance in
  let separation := overlap / 2 in
  let e1 := if 0 <? overlap
            then Entity.setPosition entity1
                   (Entity.x entity1 - nx * separation)
                   (Entity.y entity1 - ny * separation)
            else entity1 in
  let e2 := if 0 <? overlap
            then Entity.setPosition entity2
                   (Entity.x entity2 + nx * separation)
                   (Entity.y entity2 + ny * separation)
            else entity2 in
  let v1 := PhysicsComponent.velocity p1 in
  let v2 := PhysicsComponent.velocity p2 in
  let relativeVelocityX := Vec.x v2 - Vec.x v1 in
  let relativeVelocityY := Vec.y v2 - Vec.y v1 in
  let velocityAlongNormal :=
    relativeVelocityX * nx + relativeVelocityY * ny in
  if 0 <? velocityAlongNormal then (e1, e2) else
  let restitution :=
    min (or (PhysicsComponent.restitution p1) 0.8)
        (or (PhysicsComponent.restitution p2) 0.8) in
  let impulseScalar := - (1 + restitution) * velocityAlongNormal in
  let totalMass := PhysicsComponent.mass p1 + PhysicsComponent.mass p2 in
  let impulse := impulseScalar / totalMass in
  let impulseX := impulse * nx in
  let impulseY := impulse * ny in
  let v1' := Vec.mk (Vec.x v1 - impulseX * PhysicsComponent.mass p2)
                    (Vec.y v1 - impulseY * PhysicsComponent.mass p2) in
  let v2' := Vec.mk (Vec.x v2 + impulseX * PhysicsComponent.mass p1)
                    (Vec.y v2 + impulseY * PhysicsComponent.mass p1) in
  (Entity.setPhysics e1 (Some (PhysicsComponent.setVelocity p1 v1')),
   Entity.setPhysics e2 (Some (PhysicsComponent.setVelocity p2 v2')))
| _, _ => (entity1, entity2)
end.

(** The velocity of an entity with a physics component. *)
Definition velocityOf (e : Entity.t) : option Vec.t :=
option_map PhysicsComponent.velocity (Entity.physics e).

(** The sum of the velocities of two entities with physics components:
    the total velocity the collision property speaks of. *)
Definition totalVelocity (e1 e2 : Entity.t) : option Vec.t :=
match velocityOf e1, velocityOf e2 with
| Some v1, Some v2 =>
  Some (Vec.mk (Vec.x v1 + Vec.x v2) (Vec.y v1 + Vec.y v2))
| _, _ => None
end.

(** The position [createFragments] computes for fragment [i] of the [count]
    fragments of a large asteroid at [(thisX, thisY)] (entities.js
    524-527): [cos] and [sin] stand for [Math.cos] and [Math.sin], and
    [rnd] is the value [Math.random()] gives to [Utils.random]. *)
Definition fragmentPosition (cos sin : float -> float)
  (thisX thisY radius i count rnd : float) : Vec.t :=
let angle := (PI * 2 * i) / count + random rnd (-0.5) 0.5 in
let distance := radius * 0.5 in
Vec.mk (thisX + cos angle * distance) (thisY + sin angle * distance).

End Binary64.

(** ** Helpers of the statements *)

(** The entity with the screen-wrap flag of its physics component set. *)
Definition withScreenWrap (e : Entity.t) (b : bool) : Entity.t :=
Entity.setPhysics e
  (option_map (fun p =>
     PhysicsComponent.mk (PhysicsComponent.mass p)
       (PhysicsComponent.velocity p) (PhysicsComponent.acceleration p)
       (PhysicsComponent.force p) (PhysicsComponent.damping p)
       (PhysicsComponent.maxVelocity p) (PhysicsComponent.collisionRadius p)
       (PhysicsComponent.restitution p) b (PhysicsComponent.isStatic p))
     (Entity.physics e)).

(** The entity with the damping field of its physics component set. *)
Definition withDamping (e : Entity.t) (d : R) : Entity.t :=
Entity.setPhysics e
  (option_map (fun p =>
     PhysicsComponent.mk (PhysicsComponent.mass p)
       (PhysicsComponent.velocity p) (PhysicsComponent.acceleration p)
       (PhysicsComponent.force p) d
       (PhysicsComponent.maxVelocity p) (PhysicsComponent.collisionRadius p)
       (PhysicsComponent.restitution p) (PhysicsComponent.screenWrap p)
       (PhysicsComponent.isStatic p))
     (Entity.physics e)).

(** The entity with the velocity of its physics component set. *)
Definition withVelocity (e : Entity.t) (v : Vec.t) : Entity.t :=
Entity.setPhysics e
  (option_map (fun p => PhysicsComponent.setVelocity p v) (Entity.physics e)).

(** The initial velocities of the projectiles of a game, in the order the
    projectiles were added. *)
Definition velocities (game : Game.t) : list Vec.t :=
map Projectile.velocity (Game.projectiles (Game.entities game)).

(** The velocity a projectile is launched with: the direction of [rotation]
    at [speed], plus half the velocity of [owner]. *)
Definition launchVelocity (rotation speed : R) (owner : Entity.t) : Vec.t :=
Utils.vector.add (Utils.vector.fromAngle rotation speed)
  (Utils.vector.multiply (velocityOf owner) 0.5).

(** Successive calls of [Player.fire], one at each time of [times]. *)
Fixpoint fireAll (p : Player.t) (game : Game.t) (times : list R)
  : Player.t * Game.t :=
match times with
| [] => (p, game)
| now :: rest => let (p', game') := Player.fire p now game in
                 fireAll p' game' rest
end.

(** Each time of [times] is at least [rate] after the one before, the first
    one at least [rate] after [last]. *)
Fixpoint spaced (last rate : R) (times : list R) : Prop :=
match times with
| [] => True
| now :: rest => now - last >= rate /\ spaced now rate rest
end.

(** Successive calls of a timer's [update], one for each element of
    [deltas], with the flags they return. *)
Fixpoint timerUpdates (this : Utils.timer.t) (deltas : list R)
  : Utils.timer.t * list bool :=
match deltas with
| [] => (this, [])
| deltaTime :: rest =>
  let (this', fired) := Utils.timer.update this deltaTime in
  let (last, flags) := timerUpdates this' rest in
  (last, fired :: flags)
end.

(** The health of an entity lies between 0 and its maximum. *)
Definition healthInRange (e : Entity.t) : Prop :=
match Entity.health e with
| Some h => 0 <= HealthComponent.current h <= HealthComponent.max h
| None => True
end.

(** Successive calls of a projectile's [update]. *)
Fixpoint projectileUpdates (p : Projectile.t) (deltas : list R)
  (canvasWidth canvasHeight : R) : Projectile.t :=
match deltas with
| [] => p
| deltaTime :: rest =>
  projectileUpdates (Projectile.update p deltaTime canvasWidth canvasHeight)
    rest canvasWidth canvasHeight
end.

(** The heat of the player's weapon is not negative, and below the maximum
    while the weapon is not overheated. *)
Definition heatBounded (w : Player.weaponState) : Prop :=
0 <= Player.heat w
/\ (Player.overheated w = false -> Player.heat w < Player.maxHeat w).

(** A computation reads the random source without changing it. *)
Definition keepsSource {A : Type} (m : Rand A) : Prop :=
forall s, source (snd (m s)) = source s.

(** The type tags the constructors of the source give to entities. *)
Definition typeTags : list string :=
["player"; "asteroid"; "projectile"; "enemy"; "pickup"; "entity"]%string.

(** A large asteroid on the left or the right side of the canvas. *)
Definition asteroidOnSide (width height : R) (sp : Spawn) : Prop :=
match sp with
| SAsteroid a =>
  Asteroid.size a = "large"%string
  /\ Entity.type (Asteroid.base a) = "asteroid"%string
  /\ (Entity.x (Asteroid.base a) = 0 \/ Entity.x (Asteroid.base a) = width)
  /\ 0 <= Entity.y (Asteroid.base a) <= height
| SEnemy _ => False
end.

(** An enemy of one of the three classes on the top or the bottom side of
    the canvas. *)
Definition enemyOnSide (width height : R) (sp : Spawn) : Prop :=
match sp with
| SAsteroid _ => False
| SEnemy e =>
  In (Enemy.className e) ["ScoutSaucer"; "HunterDrone"; "MarauderFrigate"]%string
  /\ Entity.type (Enemy.base e) = "enemy"%string
  /\ (Entity.y (Enemy.base e) = 0 \/ Entity.y (Enemy.base e) = height)
  /\ 0 <= Entity.x (Enemy.base e) <= width
end.

(** ** Inputs of the examples *)

(** An entity on the left edge that moves one unit to the left in a step of
    one millisecond, on an 800 by 600 screen. *)
Definition leftMover : Entity.t :=
withVelocity
  (Entity.new 0 300
     (Entity.mkOptions None None None
        (Some (PhysicsComponent.mkOptions None (Some 1) None None None None
                 None))
        None None None))
  (Vec.mk (-1000) 0).

(** An entity on the right edge that moves five units to the right in a
    step of one millisecond. *)
Definition rightMover : Entity.t :=
withVelocity
  (Entity.new 800 300
     (Entity.mkOptions None None None
        (Some (PhysicsComponent.mkOptions None (Some 1) None None None None
                 None))
        None None None))
  (Vec.mk 5000 0).

(** Two balls of mass 1, radius 2 and restitution 1, three units apart on a
    line, moving towards each other at speed 1. *)
Definition ball (x vx : R) : Entity.t :=
withVelocity
  (Entity.new x 0
     (Entity.mkOptions None None None
        (Some (PhysicsComponent.mkOptions None None None (Some 2) (Some 1)
                 None None))
        None None None))
  (Vec.mk vx 0).

(** A body without damping that drifts across the screen. *)
Definition drifter : Entity.t :=
withVelocity
  (Entity.new 100 100
     (Entity.mkOptions None None None
        (Some (PhysicsComponent.mkOptions None (Some 1) None None None None
                 None))
        None None None))
  (Vec.mk 30 (-40)).

(** An entity with 10 points of health left out of 100. *)
Definition wounded : Entity.t :=
Entity.setHealth
  (Entity.new 0 0
     (Entity.mkOptions None None None None (Some (Some 100)) None None))
  (Some (HealthComponent.mk 10 100 false 0)).

(** What a weapon reads of [new ScoutSaucer(x, y)], and the blaster the
    saucer's constructor mounts on it (enemies.js). *)
Definition scoutSaucer (x y : R) : Owner :=
mkOwner
  (Entity.new x y
     (Entity.mkOptions None None (Some "enemy"%string)
        (Some (PhysicsComponent.mkOptions (Some 0.5) (Some 0.95) (Some 150)
                 (Some 15) None None None))
        (Some (Some 30)) None None))
  15.

Definition scoutBlaster : Weapon.t :=
Blaster.new (Weapon.mkOptions (Some 1500) (Some 15) (Some 200) None None).

(** A saucer that faces along the x axis and drifts along it at speed 2. *)
Definition driftingScout : Owner :=
mkOwner (withVelocity (entity (scoutSaucer 100 100)) (Vec.mk 2 0)) 15.

(** A game with no entity and no audio manager. *)
Definition emptyGame : Game.t := Game.mk [] None.

(** Seven shots, one every 200 ms from the first moment the fire rate
    allows. *)
Definition sevenShots : list R := [200; 400; 600; 800; 1000; 1200; 1400].

(** A random source that always gives one half, and a large asteroid built
    on it. *)
Definition halves : RandState := mkRandState (fun _ => 1 / 2) 0.

Definition largeAsteroid : Asteroid.t :=
fst (Asteroid.new 400 300 "large" halves).

(** Two bodies of mass 1, radius 2 and restitution 1 in binary64, three
    units apart on a line: the left one moves right at 0.3, the right one
    left at 0.1. *)
Definition floatBall (x vx : PrimFloat.float) : Binary64.Entity.t :=
Binary64.Entity.mk x 0
  (Some (Binary64.PhysicsComponent.mk 1 (Binary64.Vec.mk vx 0) 2 1)).

(** [Math.cos] and [Math.sin] at the one angle the fragment example asks
    for, [2.0943951023931953] (the binary64 value of [Math.PI * 2 * 1 / 3]):
    the binary64 numbers nearest to the cosine and the sine of that angle;
    [NaN] at any other angle. *)
Definition cosTable (angle : PrimFloat.float) : PrimFloat.float :=
if PrimFloat.eqb angle 2.0943951023931953
then (-0.4999999999999998)%float else PrimFloat.nan.

Definition sinTable (angle : PrimFloat.float) : PrimFloat.float :=
if PrimFloat.eqb angle 2.0943951023931953
then 0.8660254037844387%float else PrimFloat.nan.

(** * Properties *)

(** Succeeds when no comparison is left to decide inside [t]. *)
Ltac settled t :=
  lazymatch t with
  | context [Rlt_dec _ _] => fail
  | context [Rgt_dec _ _] => fail
  | context [Rle_dec _ _] => fail
  | context [Rge_dec _ _] => fail
  | context [Req_dec_T _ _] => fail
  | _ => idtac
  end.

(** Decides the comparisons a goal branches on, innermost first, by linear
    arithmetic. *)
Ltac rdec :=
  repeat match goal with
  | |- context [Rlt_dec ?a ?b] =>
    settled a; settled b; destruct (Rlt_dec a b); try lra
  | |- context [Rgt_dec ?a ?b] =>
    settled a; settled b; destruct (Rgt_dec a b); try lra
  | |- context [Rle_dec ?a ?b] =>
    settled a; settled b; destruct (Rle_dec a b); try lra
  | |- context [Rge_dec ?a ?b] =>
    settled a; settled b; destruct (Rge_dec a b); try lra
  | |- context [Req_dec_T ?a ?b] =>
    settled a; settled b; destruct (Req_dec_T a b); try lra
  end.

(** ** Screen wrapping *)

Lemma wrapPosition_x (x y width height : R) :
  Vec.x (Utils.wrapPosition x y width height)
  = if Rlt_dec x 0 then width else if Rgt_dec x width then 0 else x.
Proof. reflexivity. Qed.

Lemma wrapPosition_y (x y width height : R) :
  Vec.y (Utils.wrapPosition x y width height)
  = if Rlt_dec y 0 then height else if Rgt_dec y height then 0 else y.
Proof. reflexivity. Qed.

Lemma wrapPosition_range (x y width height : R) :
  0 <= width -> 0 <= height ->
  0 <= Vec.x (Utils.wrapPosition x y width height) <= width
  /\ 0 <= Vec.y (Utils.wrapPosition x y width height) <= height.
Proof.
  intros Hw Hh. rewrite wrapPosition_x, wrapPosition_y.
  split; rdec.
Qed.

Lemma wrapPosition_inside (x y width height : R) :
  0 <= x <= width -> 0 <= y <= height ->
  Utils.wrapPosition x y width height = Vec.mk x y.
Proof.
  intros Hx Hy. unfold Utils.wrapPosition. rdec. reflexivity.
Qed.

(** C4: for [width > 1] and [height > 1], [wrapPosition] sends [x = width + 1]
    to [0] and [x = -1] to [width], and likewise [y = height + 1] to [0] and
    [y = -1] to [height]; the other coordinate, when it is in range, is left
    as it is. *)
Theorem wrapPosition_edges (width height : R) :
  width > 1 -> height > 1 ->
  (forall y, 0 <= y <= height ->
     Utils.wrapPosition (width + 1) y width height = Vec.mk 0 y)
  /\ (forall y, 0 <= y <= height ->
     Utils.wrapPosition (-1) y width height = Vec.mk width y)
  /\ (forall x, 0 <= x <= width ->
     Utils.wrapPosition x (height + 1) width height = Vec.mk x 0)
  /\ (forall x, 0 <= x <= width ->
     Utils.wrapPosition x (-1) width height = Vec.mk x height).
Proof.
  intros Hw Hh.
  repeat split; intros c Hc; unfold Utils.wrapPosition; rdec; reflexivity.
Qed.

Lemma wrapPosition_edges_witness :
  Utils.wrapPosition (800 + 1) 300 800 600 = Vec.mk 0 300
  /\ Utils.wrapPosition (-1) 300 800 600 = Vec.mk 800 300
  /\ Utils.wrapPosition 400 (600 + 1) 800 600 = Vec.mk 400 0
  /\ Utils.wrapPosition 400 (-1) 800 600 = Vec.mk 400 600.
Proof.
  destruct (wrapPosition_edges 800 600 ltac:(lra) ltac:(lra))
    as (H1 & H2 & H3 & H4).
  repeat split; [apply H1 | apply H2 | apply H3 | apply H4]; lra.
Defined.

Lemma updateEntity_no_physics (this : PhysicsEngine.t) (e : Entity.t)
  (deltaTime : R) :
  Entity.physics e = None -> PhysicsEngine.updateEntity this e deltaTime = e.
Proof.
  intros H. unfold PhysicsEngine.updateEntity. rewrite H. reflexivity.
Qed.

(** C3, as stated, fails: with screen wrap on, a step that leaves the screen
    on the left ends at [x = width], which is outside [[0, width)], and a
    step that overshoots the right edge by 5 ends at [x = 0], not at 5. *)
Lemma updateEntity_wrap_counterexample :
  let engine := PhysicsEngine.new 800 600 in
  option_map PhysicsComponent.screenWrap (Entity.physics leftMover)
  = Some true
  /\ Entity.x (PhysicsEngine.updateEntity engine leftMover 1)
     = PhysicsEngine.width engine
  /\ ~ (0 <= Entity.x (PhysicsEngine.updateEntity engine leftMover 1)
        < PhysicsEngine.width engine)
  /\ Entity.x (PhysicsEngine.updateEntity engine
                 (withScreenWrap rightMover false) 1) = 805
  /\ Entity.x (PhysicsEngine.updateEntity engine rightMover 1) = 0.
Proof.
  cbv [leftMover rightMover withVelocity withScreenWrap Entity.new
       createPhysicsComponent PhysicsEngine.new PhysicsEngine.updateEntity
       Entity.setPhysics Entity.setPosition option_map
       PhysicsComponent.setVelocity PhysicsComponent.setForce
       PhysicsComponent.setAcceleration Utils.wrapPosition JS.or JS.orNull
       JS.orFalse].
  cbn [Entity.physics Entity.x Entity.y PhysicsComponent.screenWrap
       PhysicsComponent.mass PhysicsComponent.velocity PhysicsComponent.force
       PhysicsComponent.damping PhysicsComponent.maxVelocity
       PhysicsComponent.o_mass PhysicsComponent.o_damping
       PhysicsComponent.o_maxVelocity PhysicsComponent.o_screenWrap
       PhysicsComponent.o_collisionRadius PhysicsComponent.o_restitution
       PhysicsComponent.o_isStatic Entity.o_physics
       PhysicsEngine.width PhysicsEngine.height PhysicsEngine.damping
       Vec.x Vec.y Vec.zero].
  split; [reflexivity|].
  rdec.
Qed.

(** C3, amended: with screen wrap on and a screen of non-negative width and
    height, a step ends inside the closed rectangle [[0, width]] by
    [[0, height]]; the position is the one [wrapPosition] gives for the
    position the same step reaches with screen wrap off: a coordinate below
    0 becomes the width (height), a coordinate above the width (height)
    becomes 0, and the overshoot is dropped. *)
Theorem updateEntity_wraps_to_edges (this : PhysicsEngine.t) (e : Entity.t)
  (p : PhysicsComponent.t) (deltaTime : R) :
  0 <= PhysicsEngine.width this -> 0 <= PhysicsEngine.height this ->
  Entity.physics e = Some p -> PhysicsComponent.screenWrap p = true ->
  let free := PhysicsEngine.updateEntity this (withScreenWrap e false)
                deltaTime in
  let e' := PhysicsEngine.updateEntity this e deltaTime in
  Vec.mk (Entity.x e') (Entity.y e')
  = Utils.wrapPosition (Entity.x free) (Entity.y free)
      (PhysicsEngine.width this) (PhysicsEngine.height this)
  /\ 0 <= Entity.x e' <= PhysicsEngine.width this
  /\ 0 <= Entity.y e' <= PhysicsEngine.height this.
Proof.
  intros Hw Hh Hp Hwrap free e'.
  assert (Hpos : Vec.mk (Entity.x e') (Entity.y e')
    = Utils.wrapPosition (Entity.x free) (Entity.y free)
        (PhysicsEngine.width this) (PhysicsEngine.height this)).
  { subst free e'. unfold PhysicsEngine.updateEntity, withScreenWrap.
    cbn [Entity.setPhysics Entity.physics]. rewrite Hp.
    cbn [option_map]. rewrite Hwrap. reflexivity. }
  split; [exact Hpos|].
  pose proof (wrapPosition_range (Entity.x free) (Entity.y free) _ _ Hw Hh)
    as Hr.
  rewrite <- Hpos in Hr. exact Hr.
Qed.

Lemma updateEntity_wraps_to_edges_witness :
  let e' := PhysicsEngine.updateEntity (PhysicsEngine.new 800 600)
              leftMover 1 in
  0 <= Entity.x e' <= 800 /\ 0 <= Entity.y e' <= 600.
Proof.
  refine (proj2 (updateEntity_wraps_to_edges (PhysicsEngine.new 800 600)
                   leftMover _ 1 _ _ eq_refl eq_refl));
    cbv [PhysicsEngine.new PhysicsEngine.width PhysicsEngine.height]; lra.
Defined.

(** ** The constructor of physics components *)

Lemma or_nonzero (o : option R) (d : R) : d <> 0 -> JS.or o d <> 0.
Proof.
  intros Hd. unfold JS.or. destruct o as [v|]; [|exact Hd].
  destruct (Req_dec_T v 0); assumption.
Qed.

Lemma or_zero (d : R) : JS.or (Some 0) d = d.
Proof. unfold JS.or. destruct (Req_dec_T 0 0); [reflexivity | lra]. Qed.

Lemma or_given (v d : R) : v <> 0 -> JS.or (Some v) d = v.
Proof.
  intros Hv. unfold JS.or. destruct (Req_dec_T v 0); [contradiction|].
  reflexivity.
Qed.

(** C8, as stated, fails: a negative mass is truthy, so the constructor
    keeps it, and nothing asserts that the mass is positive. *)
Lemma createPhysicsComponent_negative_mass :
  let options :=
    PhysicsComponent.mkOptions (Some (-5)) None None None None None None in
  PhysicsComponent.mass (PhysicsEngine.createPhysicsComponent options) = -5
  /\ ~ PhysicsComponent.mass (PhysicsEngine.createPhysicsComponent options)
       > 0.
Proof.
  cbv [PhysicsEngine.createPhysicsComponent createPhysicsComponent
       PhysicsComponent.mass PhysicsComponent.o_mass].
  rewrite or_given by lra. split; lra.
Qed.

(** C8, amended: the mass of a component built by [createPhysicsComponent]
    is never zero, so [updateEntity] never divides by a zero mass: a missing
    or zero mass becomes 1 and any other mass, negative ones included, is
    kept as given; [updateEntity] returns an entity without a physics
    component unchanged. *)
Theorem createPhysicsComponent_mass_nonzero :
  (forall options,
     PhysicsComponent.mass (PhysicsEngine.createPhysicsComponent options)
     <> 0)
  /\ (forall options m,
        PhysicsComponent.o_mass options = Some m -> m <> 0 ->
        PhysicsComponent.mass (PhysicsEngine.createPhysicsComponent options)
        = m)
  /\ (forall options,
        PhysicsComponent.o_mass options = None
        \/ PhysicsComponent.o_mass options = Some 0 ->
        PhysicsComponent.mass (PhysicsEngine.createPhysicsComponent options)
        = 1)
  /\ (forall this e deltaTime,
        Entity.physics e = None ->
        PhysicsEngine.updateEntity this e deltaTime = e).
Proof.
  unfold PhysicsEngine.createPhysicsComponent, createPhysicsComponent.
  cbn [PhysicsComponent.mass].
  split; [|split; [|split]].
  - intros options. apply or_nonzero. lra.
  - intros options m Hm Hnz. rewrite Hm. apply or_given, Hnz.
  - intros options [H|H]; rewrite H; [reflexivity | apply or_zero].
  - intros this e deltaTime H. apply updateEntity_no_physics, H.
Qed.

Lemma createPhysicsComponent_mass_nonzero_witness :
  PhysicsComponent.mass
    (PhysicsEngine.createPhysicsComponent
       (PhysicsComponent.mkOptions (Some (-5)) None None None None None None))
  = -5
  /\ PhysicsComponent.mass
       (PhysicsEngine.createPhysicsComponent
          (PhysicsComponent.mkOptions (Some 0) None None None None None None))
     = 1
  /\ PhysicsEngine.updateEntity (PhysicsEngine.new 800 600)
       (Entity.new 1 2 Entity.noOptions) 16
     = Entity.new 1 2 Entity.noOptions.
Proof.
  destruct createPhysicsComponent_mass_nonzero as (_ & H2 & H3 & H4).
  split; [|split].
  - apply H2; [reflexivity | lra].
  - apply H3. right. reflexivity.
  - apply H4. reflexivity.
Defined.

(** C10: [createPhysicsComponent] replaces a zero damping by 0.99, a zero
    restitution by 0.8 and a zero mass by 1, so no component it builds has
    damping 0 or restitution 0; and [updateEntity], on an engine built by
    the constructor, treats a component whose damping field is 0 as it
    treats one whose damping is 0.99 (the field itself stays 0). *)
Theorem createPhysicsComponent_falsy_defaults :
  (forall options,
     PhysicsComponent.o_damping options = Some 0 ->
     PhysicsComponent.damping (PhysicsEngine.createPhysicsComponent options)
     = 0.99)
  /\ (forall options,
        PhysicsComponent.o_restitution options = Some 0 ->
        PhysicsComponent.restitution
          (PhysicsEngine.createPhysicsComponent options) = 0.8)
  /\ (forall options,
        PhysicsComponent.o_mass options = Some 0 ->
        PhysicsComponent.mass (PhysicsEngine.createPhysicsComponent options)
        = 1)
  /\ (forall options,
        PhysicsComponent.damping
          (PhysicsEngine.createPhysicsComponent options) <> 0
        /\ PhysicsComponent.restitution
             (PhysicsEngine.createPhysicsComponent options) <> 0)
  /\ (forall width height e deltaTime,
        PhysicsEngine.updateEntity (PhysicsEngine.new width height)
          (withDamping e 0) deltaTime
        = withDamping
            (PhysicsEngine.updateEntity (PhysicsEngine.new width height)
               (withDamping e 0.99) deltaTime) 0).
Proof.
  unfold PhysicsEngine.createPhysicsComponent, createPhysicsComponent.
  cbn [PhysicsComponent.mass PhysicsComponent.damping
       PhysicsComponent.restitution].
  repeat split.
  - intros options H. rewrite H. apply or_zero.
  - intros options H. rewrite H. apply or_zero.
  - intros options H. rewrite H. apply or_zero.
  - apply or_nonzero. lra.
  - apply or_nonzero. lra.
  - intros width height e deltaTime.
    unfold PhysicsEngine.updateEntity, withDamping.
    cbn [Entity.setPhysics Entity.physics].
    destruct (Entity.physics e) as [p|]; cbn [option_map]; [|reflexivity].
    cbn [PhysicsComponent.damping PhysicsEngine.new PhysicsEngine.damping].
    rewrite or_zero, or_given by lra.
    reflexivity.
Qed.

Lemma createPhysicsComponent_falsy_defaults_witness :
  PhysicsComponent.damping
    (PhysicsEngine.createPhysicsComponent
       (PhysicsComponent.mkOptions None (Some 0) None None None None None))
  = 0.99
  /\ PhysicsComponent.restitution
       (PhysicsEngine.createPhysicsComponent
          (PhysicsComponent.mkOptions None None None None (Some 0) None None))
     = 0.8
  /\ PhysicsComponent.mass
       (PhysicsEngine.createPhysicsComponent
          (PhysicsComponent.mkOptions (Some 0) None None None None None None))
     = 1.
Proof.
  destruct createPhysicsComponent_falsy_defaults as (H1 & H2 & H3 & _).
  split; [|split]; [apply H1 | apply H2 | apply H3]; reflexivity.
Defined.

(** ** Integration *)

(** C9: with no accumulated force, damping 1 and no maximum velocity, a step
    leaves the velocity as it was and moves the position by the velocity
    times [deltaTime / 1000], when screen wrap is off or the new position is
    on the screen; the step leaves the accumulated force at zero. *)
Theorem updateEntity_free_motion (this : PhysicsEngine.t) (e : Entity.t)
  (p : PhysicsComponent.t) (deltaTime : R) :
  Entity.physics e = Some p ->
  PhysicsComponent.force p = Vec.zero ->
  PhysicsComponent.damping p = 1 ->
  PhysicsComponent.maxVelocity p = None ->
  (PhysicsComponent.screenWrap p = false
   \/ (0 <= Entity.x e
            + Vec.x (PhysicsComponent.velocity p) * (deltaTime / 1000)
         <= PhysicsEngine.width this
       /\ 0 <= Entity.y e
               + Vec.y (PhysicsComponent.velocity p) * (deltaTime / 1000)
            <= PhysicsEngine.height this)) ->
  let e' := PhysicsEngine.updateEntity this e deltaTime in
  velocityOf e' = PhysicsComponent.velocity p
  /\ Entity.x e'
     = Entity.x e + Vec.x (PhysicsComponent.velocity p) * (deltaTime / 1000)
  /\ Entity.y e'
     = Entity.y e + Vec.y (PhysicsComponent.velocity p) * (deltaTime / 1000)
  /\ option_map PhysicsComponent.force (Entity.physics e') = Some Vec.zero.
Proof.
  intros Hp Hf Hd Hmax Hwrap e'. subst e'.
  unfold PhysicsEngine.updateEntity, velocityOf. rewrite Hp, Hf, Hd, Hmax.
  rewrite or_given by lra.
  destruct (PhysicsComponent.velocity p) as [vx vy] eqn:Hv.
  cbn [Vec.x Vec.y Vec.zero] in *.
  assert (Hx : (vx + 0 / PhysicsComponent.mass p * (deltaTime / 1000)) * 1
               = vx) by (unfold Rdiv; ring).
  assert (Hy : (vy + 0 / PhysicsComponent.mass p * (deltaTime / 1000)) * 1
               = vy) by (unfold Rdiv; ring).
  rewrite Hx, Hy.
  cbn [Entity.setPhysics Entity.setPosition Entity.physics Entity.x Entity.y
       PhysicsComponent.setForce PhysicsComponent.setVelocity
       PhysicsComponent.setAcceleration PhysicsComponent.velocity
       PhysicsComponent.force option_map].
  split; [reflexivity|].
  destruct Hwrap as [Hoff | [Hinx Hiny]].
  - rewrite Hoff. cbn [Vec.x Vec.y]. repeat split; reflexivity.
  - rewrite (wrapPosition_inside _ _ _ _ Hinx Hiny).
    destruct (PhysicsComponent.screenWrap p); cbn [Vec.x Vec.y];
      repeat split; reflexivity.
Qed.

Lemma updateEntity_free_motion_witness :
  let e' := PhysicsEngine.updateEntity (PhysicsEngine.new 800 600)
              drifter 16 in
  velocityOf e' = Vec.mk 30 (-40)
  /\ Entity.x e' = 100 + 30 * (16 / 1000)
  /\ Entity.y e' = 100 + (-40) * (16 / 1000)
  /\ option_map PhysicsComponent.force (Entity.physics e') = Some Vec.zero.
Proof.
  refine (updateEntity_free_motion (PhysicsEngine.new 800 600) drifter _ 16
            eq_refl eq_refl _ eq_refl _).
  - apply or_given. lra.
  - right.
    cbv [drifter withVelocity Entity.new Entity.x Entity.y Entity.setPhysics
         PhysicsComponent.velocity PhysicsComponent.setVelocity Vec.x Vec.y
         PhysicsEngine.new PhysicsEngine.width PhysicsEngine.height].
    lra.
Defined.

(** ** Collisions *)

Lemma velocityOf_setPosition (e : Entity.t) (nx ny : R) :
  velocityOf (Entity.setPosition e nx ny) = velocityOf e.
Proof. reflexivity. Qed.

(** Over the real numbers, where nothing is rounded, two entities of equal
    mass and restitution 1 keep the sum of their velocities through
    [handleCollision], whichever branch it takes: the two impulses are
    [impulse * n * mass] with the same mass.  This is the conservation law
    the collision code is written after; the binary64 arithmetic of the
    program keeps it only up to rounding, as the properties below show. *)
Lemma handleCollision_exact_sum (e1 e2 : Entity.t)
  (p1 p2 : PhysicsComponent.t) :
  Entity.physics e1 = Some p1 -> Entity.physics e2 = Some p2 ->
  PhysicsComponent.mass p1 = PhysicsComponent.mass p2 ->
  PhysicsComponent.restitution p1 = 1 ->
  PhysicsComponent.restitution p2 = 1 ->
  Utils.vector.add
    (velocityOf (fst (PhysicsEngine.handleCollision e1 e2)))
    (velocityOf (snd (PhysicsEngine.handleCollision e1 e2)))
  = Utils.vector.add (velocityOf e1) (velocityOf e2).
Proof.
  intros Hp1 Hp2 Hm Hr1 Hr2.
  unfold PhysicsEngine.handleCollision.
  destruct (negb (PhysicsEngine.checkCollision e1 e2)); [reflexivity|].
  rewrite Hp1, Hp2.
  match goal with
  | |- context [Req_dec_T ?d 0] => destruct (Req_dec_T d 0) as [Hz|Hnz]
  end; [reflexivity|].
  repeat match goal with
  | |- context [Rgt_dec ?v 0] => destruct (Rgt_dec v 0)
  end;
    cbn [fst snd]; unfold velocityOf, Utils.vector.add;
    cbn [Entity.setPhysics Entity.setPosition Entity.physics
         PhysicsComponent.setVelocity PhysicsComponent.velocity
         PhysicsComponent.mass Vec.x Vec.y];
    rewrite ?Hp1, ?Hp2, ?Hm; f_equal; ring.
Qed.

(** C6, the counterexample: two bodies of equal mass and restitution 1
    that overlap and approach each other, with velocities 0.3 and -0.1
    along the x axis.  [handleCollision] takes the impulse branch and
    exchanges the two velocities up to rounding, to -0.10000000000000003
    and 0.30000000000000004: the total velocity is 0.19999999999999998
    before the call and 0.2 after it, so it is not preserved exactly. *)
Lemma handleCollision_sum_counterexample :
  let e1 := floatBall 0 0.3 in
  let e2 := floatBall 3 (-0.1) in
  let r := Binary64.handleCollision e1 e2 in
  option_map Binary64.PhysicsComponent.mass (Binary64.Entity.physics e1)
  = option_map Binary64.PhysicsComponent.mass (Binary64.Entity.physics e2)
  /\ option_map Binary64.PhysicsComponent.restitution
       (Binary64.Entity.physics e1) = Some 1%float
  /\ option_map Binary64.PhysicsComponent.restitution
       (Binary64.Entity.physics e2) = Some 1%float
  /\ Binary64.velocityOf (fst r)
     = Some (Binary64.Vec.mk (-0.10000000000000003) 0)
  /\ Binary64.velocityOf (snd r)
     = Some (Binary64.Vec.mk 0.30000000000000004 0)
  /\ Binary64.totalVelocity e1 e2
     = Some (Binary64.Vec.mk 0.19999999999999998 0)
  /\ Binary64.totalVelocity (fst r) (snd r)
     = Some (Binary64.Vec.mk 0.2 0)
  /\ Binary64.totalVelocity (fst r) (snd r) <> Binary64.totalVelocity e1 e2.
Proof.
  vm_compute. repeat split. intros H.
  apply (f_equal (fun total =>
           match total with
           | Some v => PrimFloat.eqb (Binary64.Vec.x v) 0.2
           | None => false
           end)) in H.
  vm_compute in H. discriminate H.
Qed.

(** C6: in binary64, for two entities whose physics components have the
    same mass, [handleCollision] returns both entities untouched when
    [checkCollision] fails, and otherwise either leaves both velocities as
    they were, and with them their sum (the zero-distance and the
    separating-velocities skips), or subtracts from the velocity of the
    first entity the very vector it adds to the velocity of the second (the
    impulse branch): the total velocity changes by the rounding of that one
    subtraction and that one addition, and by nothing else. *)
Theorem handleCollision_opposite_impulses
  (entity1 entity2 : Binary64.Entity.t)
  (p1 p2 : Binary64.PhysicsComponent.t) :
  Binary64.Entity.physics entity1 = Some p1 ->
  Binary64.Entity.physics entity2 = Some p2 ->
  Binary64.PhysicsComponent.mass p1 = Binary64.PhysicsComponent.mass p2 ->
  let r := Binary64.handleCollision entity1 entity2 in
  let v1 := Binary64.PhysicsComponent.velocity p1 in
  let v2 := Binary64.PhysicsComponent.velocity p2 in
  (Binary64.checkCollision entity1 entity2 = false -> r = (entity1, entity2))
  /\ ((Binary64.velocityOf (fst r) = Some v1
       /\ Binary64.velocityOf (snd r) = Some v2
       /\ Binary64.totalVelocity (fst r) (snd r)
          = Binary64.totalVelocity entity1 entity2)
      \/ exists ix iy : float,
           Binary64.velocityOf (fst r)
           = Some (Binary64.Vec.mk (Binary64.Vec.x v1 - ix)
                     (Binary64.Vec.y v1 - iy))%float
           /\ Binary64.velocityOf (snd r)
              = Some (Binary64.Vec.mk (Binary64.Vec.x v2 + ix)
                        (Binary64.Vec.y v2 + iy))%float).
Proof.
  intros Hp1 Hp2 Hm r v1 v2. subst r v1 v2.
  unfold Binary64.handleCollision.
  assert (Hkept : forall x1 y1 x2 y2,
    let e1 := Binary64.Entity.mk x1 y1 (Binary64.Entity.physics entity1) in
    let e2 := Binary64.Entity.mk x2 y2 (Binary64.Entity.physics entity2) in
    Binary64.velocityOf e1 = Some (Binary64.PhysicsComponent.velocity p1)
    /\ Binary64.velocityOf e2 = Some (Binary64.PhysicsComponent.velocity p2)
    /\ Binary64.totalVelocity e1 e2
       = Binary64.totalVelocity entity1 entity2).
  { intros x1 y1 x2 y2.
    unfold Binary64.totalVelocity, Binary64.velocityOf.
    cbn [Binary64.Entity.physics]. rewrite Hp1, Hp2.
    repeat split. }
  assert (Hsame : Binary64.velocityOf entity1
                  = Some (Binary64.PhysicsComponent.velocity p1)
                  /\ Binary64.velocityOf entity2
                     = Some (Binary64.PhysicsComponent.velocity p2)
                  /\ Binary64.totalVelocity entity1 entity2
                     = Binary64.totalVelocity entity1 entity2).
  { unfold Binary64.velocityOf. rewrite Hp1, Hp2. repeat split. }
  split.
  - intros Hcheck. rewrite Hcheck. reflexivity.
  - destruct (Binary64.checkCollision entity1 entity2); cbn [negb];
      [|left; exact Hsame].
    rewrite Hp1, Hp2. cbv zeta.
    destruct (PrimFloat.eqb _ 0); [left; exact Hsame|].
    destruct (PrimFloat.ltb 0 (_ * _ + _ * _)).
    + left. destruct (PrimFloat.ltb 0 _); cbn [fst snd];
        [apply Hkept | exact Hsame].
    + right. rewrite Hm. eexists. eexists.
      destruct (PrimFloat.ltb 0 _);
        unfold Binary64.velocityOf;
        cbn [fst snd Binary64.Entity.setPosition Binary64.Entity.setPhysics
             Binary64.Entity.physics option_map
             Binary64.PhysicsComponent.setVelocity
             Binary64.PhysicsComponent.velocity];
        split; reflexivity.
Qed.

Lemma handleCollision_opposite_impulses_witness :
  let e1 := floatBall 0 0.3 in
  let e2 := floatBall 3 (-0.1) in
  Binary64.velocityOf (fst (Binary64.handleCollision e1 e2))
  = Some (Binary64.Vec.mk (-0.10000000000000003) 0)
  /\ exists ix iy : float,
       Binary64.velocityOf (fst (Binary64.handleCollision e1 e2))
       = Some (Binary64.Vec.mk (0.3 - ix) (0 - iy))%float
       /\ Binary64.velocityOf (snd (Binary64.handleCollision e1 e2))
          = Some (Binary64.Vec.mk (-0.1 + ix) (0 + iy))%float.
Proof.
  intros e1 e2. split; [reflexivity|].
  destruct (handleCollision_opposite_impulses e1 e2 _ _ eq_refl eq_refl
              eq_refl) as [_ [[H _] | H]].
  - discriminate H.
  - exact H.
Defined.

(** ** Damage *)

Lemma takeDamage_survived (e : Entity.t) (h : HealthComponent.t)
  (amount : R) :
  Entity.health e = Some h -> HealthComponent.invulnerable h = false ->
  amount < HealthComponent.current h ->
  Entity.takeDamage e amount
  = (Entity.setHealth e (Some (HealthComponent.mk
       (HealthComponent.current h - amount) (HealthComponent.max h)
       true 500)), false).
Proof.
  intros Hh Hi Hlt. unfold Entity.takeDamage. rewrite Hh, Hi.
  destruct (Rle_dec (HealthComponent.current h - amount) 0) as [Hn|_];
    [exfalso; lra | reflexivity].
Qed.

Lemma takeDamage_invulnerable (e : Entity.t) (h : HealthComponent.t)
  (amount : R) :
  Entity.health e = Some h -> HealthComponent.invulnerable h = true ->
  Entity.takeDamage e amount = (e, false).
Proof.
  intros Hh Hi. unfold Entity.takeDamage. rewrite Hh, Hi. reflexivity.
Qed.

(** C2: on an entity with health 10 of 100 that is not invulnerable,
    [takeDamage 15] sets the health to 0, destroys the entity and returns
    [true]; on an invulnerable entity [takeDamage] changes nothing and
    returns [false], so the call that follows a hit the entity survived,
    which opened the window of 500 ms, has no effect. *)
Theorem takeDamage_lethal_and_ignored (e : Entity.t)
  (h : HealthComponent.t) :
  Entity.health e = Some h ->
  HealthComponent.current h = 10 ->
  HealthComponent.max h = 100 ->
  HealthComponent.invulnerable h = false ->
  (snd (Entity.takeDamage e 15) = true
   /\ option_map HealthComponent.current
        (Entity.health (fst (Entity.takeDamage e 15))) = Some 0
   /\ Entity.alive (fst (Entity.takeDamage e 15)) = false)
  /\ (forall e2 h2 amount,
        Entity.health e2 = Some h2 ->
        HealthComponent.invulnerable h2 = true ->
        Entity.takeDamage e2 amount = (e2, false))
  /\ (forall first second,
        first < 10 ->
        let hit := fst (Entity.takeDamage e first) in
        snd (Entity.takeDamage e first) = false
        /\ option_map HealthComponent.invulnerable (Entity.health hit)
           = Some true
        /\ option_map HealthComponent.invulnerabilityTime (Entity.health hit)
           = Some 500
        /\ Entity.takeDamage hit second = (hit, false)).
Proof.
  intros Hh Hc Hm Hi. split; [|split].
  - unfold Entity.takeDamage. rewrite Hh, Hi, Hc.
    destruct (Rle_dec (10 - 15) 0) as [_|Hn]; [|exfalso; lra].
    repeat split.
  - intros e2 h2 amount. apply takeDamage_invulnerable.
  - intros first second Hlt hit. subst hit.
    rewrite (takeDamage_survived e h first Hh Hi) by lra.
    cbn [fst snd Entity.health Entity.setHealth option_map
         HealthComponent.invulnerable HealthComponent.invulnerabilityTime].
    repeat split.
Qed.

Lemma takeDamage_lethal_and_ignored_witness :
  snd (Entity.takeDamage wounded 15) = true
  /\ option_map HealthComponent.current
       (Entity.health (fst (Entity.takeDamage wounded 15))) = Some 0
  /\ Entity.alive (fst (Entity.takeDamage wounded 15)) = false.
Proof.
  exact (proj1 (takeDamage_lethal_and_ignored wounded _
                  eq_refl eq_refl eq_refl eq_refl)).
Defined.

(** After the lethal hit no window of invulnerability is open; a further
    hit of a non-negative amount is not ignored but finds the health at 0:
    it leaves the entity as it is and returns [true] once more. *)
Example takeDamage_after_death (amount : R) :
  0 <= amount ->
  let dead := fst (Entity.takeDamage wounded 15) in
  option_map HealthComponent.invulnerable (Entity.health dead) = Some false
  /\ Entity.takeDamage dead amount = (dead, true).
Proof.
  intros Ha dead. subst dead.
  assert (H : Entity.takeDamage wounded 15
    = (Entity.destroy (Entity.setHealth wounded
         (Some (HealthComponent.mk 0 100 false 0))), true)).
  { unfold Entity.takeDamage, wounded.
    cbn [Entity.health Entity.setHealth HealthComponent.invulnerable
         HealthComponent.current HealthComponent.max
         HealthComponent.invulnerabilityTime].
    destruct (Rle_dec (10 - 15) 0) as [_|Hn]; [reflexivity | exfalso; lra]. }
  rewrite H. cbn [fst]. split; [reflexivity|].
  unfold Entity.takeDamage.
  cbn [Entity.health Entity.destroy Entity.setAlive Entity.setHealth
       HealthComponent.invulnerable HealthComponent.current
       HealthComponent.max HealthComponent.invulnerabilityTime].
  destruct (Rle_dec (0 - amount) 0) as [_|Hn]; [reflexivity | exfalso; lra].
Qed.

(** ** Projectile velocity *)

Lemma or_self (v : R) : JS.or (Some v) 0 = v.
Proof.
  unfold JS.or. destruct (Req_dec_T v 0) as [Hz|_]; [symmetry; exact Hz|].
  reflexivity.
Qed.

Lemma projectiles_app (l : list GameEntity) (p : Projectile.t) :
  Game.projectiles (l ++ [GProjectile p]) = Game.projectiles l ++ [p].
Proof.
  induction l as [|g l IH]; [reflexivity|].
  destruct g; cbn [app Game.projectiles]; rewrite IH; reflexivity.
Qed.

Lemma Projectile_new_velocity (x y : R) (options : Projectile.options) :
  Projectile.velocity (Projectile.new x y options)
  = let direction :=
      Utils.vector.fromAngle (JS.or (Projectile.o_rotation options) 0)
        (JS.or (Projectile.o_speed options) 300) in
    match Projectile.o_owner options with
    | Some o =>
      match Entity.physics o with
      | Some p =>
        Utils.vector.add direction
          (Utils.vector.multiply (PhysicsComponent.velocity p) 0.5)
      | None => direction
      end
    | None => direction
    end.
Proof.
  unfold Projectile.velocity, Projectile.new, velocityOf.
  cbn [Projectile.base Entity.setPhysics Entity.physics Entity.new
       Entity.o_physics Entity.o_rotation Entity.rotation option_map
       PhysicsComponent.velocity PhysicsComponent.setVelocity].
  destruct (Projectile.o_owner options) as [o|]; [|reflexivity].
  destruct (Entity.physics o) as [p|]; reflexivity.
Qed.

(** C1, as stated, fails: the blaster of an enemy saucer that drifts at
    speed 2 along its heading fires its projectile at speed 201, the
    projectile speed 200 plus half the saucer's velocity. *)
Lemma enemy_projectile_counterexample :
  Weapon.canFire scoutBlaster 2000 = true
  /\ Weapon.projectileSpeed scoutBlaster = 200
  /\ map Projectile.velocity
       (Game.projectiles (Game.entities
          (snd (Blaster.fire scoutBlaster driftingScout 2000 emptyGame))))
     = [Vec.mk 201 0]
  /\ Vec.mk 201 0
     <> Utils.vector.fromAngle (Entity.rotation (entity driftingScout)) 200.
Proof.
  assert (Hspeed : Weapon.projectileSpeed scoutBlaster = 200).
  { cbv [scoutBlaster Blaster.new Weapon.new spread Weapon.projectileSpeed
         Weapon.o_projectileSpeed].
    apply or_given. lra. }
  assert (Hcan : Weapon.canFire scoutBlaster 2000 = true).
  { cbv [scoutBlaster Blaster.new Weapon.new spread Weapon.canFire
         Weapon.fireRate Weapon.lastFired Weapon.o_fireRate].
    rewrite or_given by lra. rdec; reflexivity. }
  assert (Hrot : Entity.rotation (entity driftingScout) = 0).
  { cbv [driftingScout scoutSaucer entity withVelocity Entity.new
         Entity.setPhysics Entity.rotation Entity.o_rotation JS.or].
    reflexivity. }
  split; [exact Hcan|]. split; [exact Hspeed|]. split.
  - unfold Blaster.fire. rewrite Hcan. cbn [negb snd].
    unfold Game.play, Game.addEntity. cbn [Game.entities emptyGame app].
    cbn [Game.projectiles map]. rewrite Projectile_new_velocity.
    cbn [Projectile.o_rotation Projectile.o_speed Projectile.o_owner].
    unfold Weapon.fire. rewrite Hcan. cbn [negb Weapon.projectileSpeed].
    fold (Weapon.projectileSpeed scoutBlaster). rewrite Hspeed, Hrot.
    rewrite or_self, or_given by lra.
    cbv [driftingScout scoutSaucer entity withVelocity Entity.new
         Entity.setPhysics Entity.physics option_map Entity.o_physics
         PhysicsComponent.setVelocity PhysicsComponent.velocity
         Utils.vector.add Utils.vector.multiply Utils.vector.fromAngle
         Vec.x Vec.y].
    rewrite cos_0, sin_0. f_equal. f_equal; lra.
  - rewrite Hrot. unfold Utils.vector.fromAngle. rewrite cos_0, sin_0.
    intros H. injection H as Hx _. lra.
Qed.

Lemma Projectile_new_launch (x y rotation speed : R) (o : Entity.t)
  (damage lifetime : option R) (phys : option PhysicsComponent.options) :
  speed <> 0 ->
  Projectile.velocity
    (Projectile.new x y
       (Projectile.mkOptions (Some rotation) (Some o) damage (Some speed)
          lifetime phys))
  = launchVelocity rotation speed o.
Proof.
  intros Hs. rewrite Projectile_new_velocity.
  cbn [Projectile.o_rotation Projectile.o_speed Projectile.o_owner].
  rewrite or_self, or_given by exact Hs.
  unfold launchVelocity, velocityOf.
  destruct (Entity.physics o) as [p|]; [reflexivity|].
  unfold Utils.vector.add, Utils.vector.multiply, Utils.vector.fromAngle.
  cbn [Vec.x Vec.y Vec.zero]. f_equal; ring.
Qed.

Lemma velocities_added (game : Game.t) (p : Projectile.t) (name : string) :
  velocities (Game.play (Game.addEntity game (GProjectile p)) name)
  = velocities game ++ [Projectile.velocity p].
Proof.
  unfold velocities, Game.play, Game.addEntity. cbn [Game.entities].
  rewrite projectiles_app, map_app. reflexivity.
Qed.

(** C1, amended: a projectile starts with the velocity of its heading at its
    speed plus half the velocity of its owner, whenever it has an owner with
    a physics component, and with the velocity of its heading at its speed
    alone otherwise.  The player's [fire] and the [fire] of a blaster or a
    plasma cannon, whoever owns it, each add one projectile with that
    velocity: the owner's half velocity is added for enemies as it is for
    the player. *)
Theorem projectile_velocity_adds_half_owner_velocity :
  (forall x y options,
     Projectile.velocity (Projectile.new x y options)
     = let direction :=
         Utils.vector.fromAngle (JS.or (Projectile.o_rotation options) 0)
           (JS.or (Projectile.o_speed options) 300) in
       match Projectile.o_owner options with
       | Some o =>
         match Entity.physics o with
         | Some p =>
           Utils.vector.add direction
             (Utils.vector.multiply (PhysicsComponent.velocity p) 0.5)
         | None => direction
         end
       | None => direction
       end)
  /\ (forall this owner now game,
        Weapon.canFire this now = true ->
        Weapon.projectileSpeed this <> 0 ->
        velocities (snd (Blaster.fire this owner now game))
        = velocities game
          ++ [launchVelocity (Entity.rotation (entity owner))
                (Weapon.projectileSpeed this) (entity owner)])
  /\ (forall this owner now game,
        Weapon.canFire this now = true ->
        Weapon.projectileSpeed this <> 0 ->
        velocities (snd (PlasmaCannon.fire this owner now game))
        = velocities game
          ++ [launchVelocity (Entity.rotation (entity owner))
                (Weapon.projectileSpeed this) (entity owner)])
  /\ (forall this now game,
        now - Player.lastFired (Player.weapon this)
        >= Player.fireRate (Player.weapon this) ->
        Player.overheated (Player.weapon this) = false ->
        velocities (snd (Player.fire this now game))
        = velocities game
          ++ [launchVelocity (Entity.rotation (Player.base this)) 400
                (Player.base this)]).
Proof.
  split; [exact Projectile_new_velocity|]. split; [|split].
  - intros this owner now game Hcan Hs.
    unfold Blaster.fire, Weapon.fire. rewrite Hcan. cbn [negb snd].
    rewrite velocities_added. cbn [Weapon.projectileSpeed].
    rewrite Projectile_new_launch by exact Hs. reflexivity.
  - intros this owner now game Hcan Hs.
    unfold PlasmaCannon.fire, Weapon.fire. rewrite Hcan. cbn [negb snd].
    rewrite velocities_added. cbn [Weapon.projectileSpeed].
    rewrite Projectile_new_launch by exact Hs. reflexivity.
  - intros this now game Hrate Hcool.
    unfold Player.fire. rewrite Hcool.
    destruct (Rlt_dec (now - Player.lastFired (Player.weapon this))
                (Player.fireRate (Player.weapon this))) as [Hlt|_];
      [exfalso; lra|].
    cbn [orb snd]. rewrite velocities_added.
    rewrite Projectile_new_launch by lra. reflexivity.
Qed.

Lemma projectile_velocity_adds_half_owner_velocity_witness :
  velocities (snd (Blaster.fire scoutBlaster driftingScout 2000 emptyGame))
  = velocities emptyGame
    ++ [launchVelocity (Entity.rotation (entity driftingScout))
          (Weapon.projectileSpeed scoutBlaster) (entity driftingScout)].
Proof.
  destruct projectile_velocity_adds_half_owner_velocity as (_ & HB & _).
  apply HB.
  - cbv [scoutBlaster Blaster.new Weapon.new spread Weapon.canFire
         Weapon.fireRate Weapon.lastFired Weapon.o_fireRate].
    rewrite or_given by lra. rdec; reflexivity.
  - cbv [scoutBlaster Blaster.new Weapon.new spread Weapon.projectileSpeed
         Weapon.o_projectileSpeed].
    rewrite or_given; lra.
Defined.

(** ** Weapon heat *)

Lemma fire_fires (p : Player.t) (now : R) (game : Game.t) :
  now - Player.lastFired (Player.weapon p)
  >= Player.fireRate (Player.weapon p) ->
  Player.overheated (Player.weapon p) = false ->
  exists projectile,
    Player.fire p now game
    = (Player.setWeapon p
         (Player.mkWeapon
            (Player.heat (Player.weapon p)
             + Player.heatPerShot (Player.weapon p))
            (Player.maxHeat (Player.weapon p))
            (Player.heatPerShot (Player.weapon p))
            (Player.cooldownRate (Player.weapon p))
            (if Rge_dec (Player.heat (Player.weapon p)
                         + Player.heatPerShot (Player.weapon p))
                  (Player.maxHeat (Player.weapon p))
             then true else false)
            (Player.fireRate (Player.weapon p))
            now),
       Game.play (Game.addEntity game (GProjectile projectile)) "laser").
Proof.
  intros Hrate Hcool. unfold Player.fire. rewrite Hcool.
  destruct (Rlt_dec (now - Player.lastFired (Player.weapon p))
              (Player.fireRate (Player.weapon p))) as [Hlt|_];
    [exfalso; lra|].
  cbn [orb]. eexists. reflexivity.
Qed.

Lemma fire_overheated (p : Player.t) (now : R) (game : Game.t) :
  Player.overheated (Player.weapon p) = true ->
  Player.fire p now game = (p, game).
Proof.
  intros Hhot. unfold Player.fire. rewrite Hhot, orb_true_r. reflexivity.
Qed.

(** Shots fired one after the other, each allowed by the fire rate, while
    the heat before the last shot is below the maximum: every shot adds its
    heat and a projectile, and the overheated flag is set exactly when the
    heat has reached the maximum. *)
Lemma fireAll_heat (times : list R) :
  forall (p : Player.t) (game : Game.t),
  times <> [] ->
  Player.overheated (Player.weapon p) = false ->
  spaced (Player.lastFired (Player.weapon p))
    (Player.fireRate (Player.weapon p)) times ->
  0 <= Player.heatPerShot (Player.weapon p) ->
  Player.heat (Player.weapon p)
  + Player.heatPerShot (Player.weapon p) * (INR (length times) - 1)
  < Player.maxHeat (Player.weapon p) ->
  let r := fireAll p game times in
  Player.heat (Player.weapon (fst r))
  = Player.heat (Player.weapon p)
    + Player.heatPerShot (Player.weapon p) * INR (length times)
  /\ (Player.overheated (Player.weapon (fst r)) = true <->
      Player.heat (Player.weapon p)
      + Player.heatPerShot (Player.weapon p) * INR (length times)
      >= Player.maxHeat (Player.weapon p))
  /\ length (velocities (snd r))
     = (length (velocities game) + length times)%nat.
Proof.
  induction times as [|now rest IH]; intros p game Hne Hcool Hsp Hpos Hlow;
    [contradiction|].
  destruct Hsp as [Hrate Hsp].
  destruct (fire_fires p now game Hrate Hcool) as [projectile Hfire].
  cbn [fireAll]. rewrite Hfire.
  destruct rest as [|now2 rest].
  - cbn [fireAll fst snd length Player.weapon Player.setWeapon Player.heat
         Player.overheated].
    rewrite velocities_added, length_app. cbn [length INR].
    split; [ring|]. split; [|reflexivity].
    replace (Player.heat (Player.weapon p)
             + Player.heatPerShot (Player.weapon p) * 1)
      with (Player.heat (Player.weapon p)
            + Player.heatPerShot (Player.weapon p)) by ring.
    destruct (Rge_dec (Player.heat (Player.weapon p)
                       + Player.heatPerShot (Player.weapon p))
                (Player.maxHeat (Player.weapon p))) as [Hge|Hlt].
    + split; [intros _; exact Hge | reflexivity].
    + split; [discriminate | intros Hge; contradiction].
  - set (n := length (now2 :: rest)) in *.
    assert (Hn : 1 <= INR n) by (subst n; cbn [length]; rewrite S_INR;
      pose proof (pos_INR (length rest)); lra).
    change (length (now :: now2 :: rest)) with (S n) in *.
    rewrite S_INR in *.
    set (h := Player.heat (Player.weapon p)) in *.
    set (s := Player.heatPerShot (Player.weapon p)) in *.
    set (m := Player.maxHeat (Player.weapon p)) in *.
    assert (Hprod : 0 <= s * (INR n - 1)) by (apply Rmult_le_pos; lra).
    destruct (Rge_dec (h + s) m) as [Hge|_]; [exfalso; lra|].
    assert (Hb : h + s + s * (INR n - 1) < m) by lra.
    match goal with
    | |- context [fireAll ?p1 ?g1 _] =>
      pose proof (IH p1 g1 ltac:(discriminate) eq_refl Hsp Hpos Hb)
        as (IH1 & IH2 & IH3)
    end.
    cbn [Player.weapon Player.setWeapon Player.heat Player.heatPerShot
         Player.maxHeat] in IH1, IH2.
    fold n in IH1, IH2, IH3. fold h s m in IH1, IH2.
    rewrite IH1, IH2, IH3.
    rewrite velocities_added, length_app. cbn [length].
    split; [ring|]. split; [|lia].
    split; intros H; lra.
Qed.

(** C5: with [heatPerShot = 15] and [maxHeat = 100], seven calls of [fire]
    from heat 0, each at least [fireRate] after the one before and with no
    [updateWeapon] in between, all fire (seven projectiles are added) and
    leave the heat at 105, at least 100, with the overheated flag set; a
    call of [fire] on an overheated weapon returns the player and the game
    as they are; and [updateWeapon] on an overheated weapon clears the flag
    exactly when the cooled heat is below 30, 30% of [maxHeat]; until then
    the flag stays and nothing is fired. *)
Theorem player_weapon_overheats (p : Player.t) (game : Game.t)
  (times : list R) :
  Player.heat (Player.weapon p) = 0 ->
  Player.overheated (Player.weapon p) = false ->
  Player.heatPerShot (Player.weapon p) = 15 ->
  Player.maxHeat (Player.weapon p) = 100 ->
  length times = 7%nat ->
  spaced (Player.lastFired (Player.weapon p))
    (Player.fireRate (Player.weapon p)) times ->
  (let r := fireAll p game times in
   Player.heat (Player.weapon (fst r)) = 105
   /\ Player.heat (Player.weapon (fst r)) >= 100
   /\ Player.overheated (Player.weapon (fst r)) = true
   /\ length (velocities (snd r)) = (length (velocities game) + 7)%nat)
  /\ (forall q now g,
        Player.overheated (Player.weapon q) = true ->
        Player.fire q now g = (q, g))
  /\ (forall q deltaTime now g,
        Player.heatPerShot (Player.weapon q) = 15 ->
        Player.maxHeat (Player.weapon q) = 100 ->
        Player.overheated (Player.weapon q) = true ->
        let r := Player.updateWeapon q deltaTime now g in
        (Player.cooledHeat (Player.weapon q) deltaTime
         < Player.maxHeat (Player.weapon q) * 0.3 ->
         Player.overheated (Player.weapon (fst r)) = false)
        /\ (Player.cooledHeat (Player.weapon q) deltaTime
            >= Player.maxHeat (Player.weapon q) * 0.3 ->
            Player.overheated (Player.weapon (fst r)) = true
            /\ snd r = g)).
Proof.
  intros Hheat Hcool Hshot Hmax Hlen Hsp. split; [|split].
  - assert (Hne : times <> []) by (intros ->; discriminate).
    destruct (fireAll_heat times p game Hne Hcool Hsp) as (H1 & H2 & H3).
    + rewrite Hshot. lra.
    + rewrite Hheat, Hshot, Hmax, Hlen. cbn [INR]. lra.
    + rewrite Hheat, Hshot, Hmax, Hlen in *. cbn [INR] in *.
      cbn zeta. rewrite H1, H3. repeat split; try lra.
      apply H2. lra.
  - intros q now g. apply fire_overheated.
  - intros q deltaTime now g Hshot' Hmax' Hhot r. subst r.
    unfold Player.updateWeapon. rewrite Hhot, Hmax'.
    set (c := Player.cooledHeat (Player.weapon q) deltaTime).
    destruct (Rlt_dec c (100 * 0.3)) as [Hlt|Hge]; cbn [andb]; split;
      intros Hc; try (exfalso; lra).
    + destruct (Player.autoFire _); [|reflexivity].
      unfold Player.fire.
      cbn [Player.weapon Player.setWeapon Player.overheated Player.heat
           Player.heatPerShot Player.maxHeat Player.lastFired
           Player.fireRate].
      rewrite Hshot'.
      destruct (Rlt_dec (now - Player.lastFired (Player.weapon q))
                  (Player.fireRate (Player.weapon q))); cbn [orb fst];
        [reflexivity|].
      cbn [Player.weapon Player.setWeapon Player.overheated].
      destruct (Rge_dec (c + 15) 100); [exfalso; lra | reflexivity].
    + destruct (Player.autoFire _); [|split; reflexivity].
      rewrite fire_overheated by reflexivity. split; reflexivity.
Qed.

Lemma player_weapon_overheats_witness :
  let r := fireAll (Player.new 400 300) emptyGame sevenShots in
  Player.heat (Player.weapon (fst r)) = 105
  /\ Player.heat (Player.weapon (fst r)) >= 100
  /\ Player.overheated (Player.weapon (fst r)) = true
  /\ length (velocities (snd r)) = (length (velocities emptyGame) + 7)%nat.
Proof.
  refine (proj1 (player_weapon_overheats (Player.new 400 300) emptyGame
                   sevenShots eq_refl eq_refl eq_refl eq_refl eq_refl _)).
  cbv [sevenShots spaced Player.new Player.weapon Player.lastFired
       Player.fireRate].
  repeat split; lra.
Defined.

(** ** Asteroid fragments *)

Lemma bind_run {A B : Type} (m : Rand A) (k : A -> Rand B) (s : RandState) :
  bind m k s = k (fst (m s)) (snd (m s)).
Proof. unfold bind. destruct (m s). reflexivity. Qed.

Lemma pushLoop_length {A : Type} (body : nat -> Rand A) (n : nat) :
  forall i s, length (fst (pushLoop n i body s)) = n.
Proof.
  induction n as [|n IH]; intros i s; [reflexivity|].
  cbn [pushLoop]. rewrite !bind_run. cbn [ret fst length].
  rewrite IH. reflexivity.
Qed.

Lemma keepsSource_fair {A : Type} (m : Rand A) (s : RandState) :
  keepsSource m -> fair s -> fair (snd (m s)).
Proof. intros Hk Hf n. rewrite Hk. apply Hf. Qed.

Lemma keepsSource_ret {A : Type} (a : A) : keepsSource (ret a).
Proof. intros s. reflexivity. Qed.

Lemma keepsSource_random : keepsSource Math_random.
Proof. intros s. reflexivity. Qed.

Lemma keepsSource_bind {A B : Type} (m : Rand A) (k : A -> Rand B) :
  keepsSource m -> (forall a, keepsSource (k a)) -> keepsSource (bind m k).
Proof.
  intros Hm Hk s. rewrite bind_run. rewrite Hk. apply Hm.
Qed.

Lemma keepsSource_pushLoop {A : Type} (body : nat -> Rand A) :
  (forall i, keepsSource (body i)) ->
  forall n i, keepsSource (pushLoop n i body).
Proof.
  intros Hbody. induction n as [|n IH]; intros i.
  - apply keepsSource_ret.
  - cbn [pushLoop]. apply keepsSource_bind; [apply Hbody|].
    intros a. apply keepsSource_bind; [apply IH|].
    intros l. apply keepsSource_ret.
Qed.

Lemma keepsSource_Utils_random (min max : R) :
  keepsSource (Utils.random min max).
Proof.
  apply keepsSource_bind; [apply keepsSource_random|].
  intros r. apply keepsSource_ret.
Qed.

Lemma keepsSource_randomInt (min max : Z) :
  keepsSource (Utils.randomInt min max).
Proof.
  apply keepsSource_bind; [apply keepsSource_random|].
  intros r. apply keepsSource_ret.
Qed.

Lemma keepsSource_generateShape (radius : R) :
  keepsSource (Asteroid.generateShape radius).
Proof.
  apply keepsSource_bind; [apply keepsSource_randomInt|].
  intros n. apply keepsSource_pushLoop. intros i.
  apply keepsSource_bind; [apply keepsSource_Utils_random|].
  intros r. apply keepsSource_ret.
Qed.

Lemma pushLoop_Forall_fair {A : Type} (P : A -> Prop)
  (body : nat -> Rand A) :
  (forall i, keepsSource (body i)) ->
  (forall i s, fair s -> P (fst (body i s))) ->
  forall n i s, fair s -> Forall P (fst (pushLoop n i body s)).
Proof.
  intros Hkeep Hbody. induction n as [|n IH]; intros i s Hfair.
  - constructor.
  - cbn [pushLoop]. rewrite !bind_run. cbn [ret fst].
    constructor; [apply Hbody, Hfair|].
    apply IH, keepsSource_fair; [apply Hkeep | exact Hfair].
Qed.

Lemma random_in_range (min max : R) (s : RandState) :
  fair s -> min <= max ->
  min <= fst (Utils.random min max s) <= max
  /\ (min < max -> fst (Utils.random min max s) < max).
Proof.
  intros Hfair Hle. unfold Utils.random. rewrite bind_run.
  cbn [Math_random ret fst].
  pose proof (Hfair (next s)) as Hr.
  set (r := source s (next s)) in *.
  split; [split|intros Hlt]; nra.
Qed.

Lemma Asteroid_new_fields (x y : R) (size : string) (s : RandState) :
  let a := fst (Asteroid.new x y size s) in
  Entity.x (Asteroid.base a) = x
  /\ Entity.y (Asteroid.base a) = y
  /\ Asteroid.size a = size
  /\ Asteroid.radius a = Asteroid.sd_radius (Asteroid.getSizeData size)
  /\ Entity.alive (Asteroid.base a) = true.
Proof.
  unfold Asteroid.new. rewrite !bind_run. cbn [ret fst].
  repeat split.
Qed.

(** [randomInt 2 3] gives 2 or 3 on a fair source. *)
Lemma randomInt_2_3 (s : RandState) :
  fair s ->
  fst (Utils.randomInt 2 3 s) = 2%Z \/ fst (Utils.randomInt 2 3 s) = 3%Z.
Proof.
  intros Hfair. unfold Utils.randomInt. rewrite bind_run.
  cbn [Math_random ret fst].
  change (3 - 2 + 1)%Z with 2%Z.
  set (r := source s (next s)).
  assert (Hr : 0 <= r < 1) by apply Hfair.
  destruct (base_Int_part (r * 2)) as [Hle Hgt].
  assert (H0 : (-1 < Int_part (r * 2))%Z) by (apply lt_IZR; lra).
  assert (H2 : (Int_part (r * 2) < 2)%Z) by (apply lt_IZR; lra).
  lia.
Qed.

Lemma keepsSource_Asteroid_new (x y : R) (size : string) :
  keepsSource (Asteroid.new x y size).
Proof.
  unfold Asteroid.new.
  apply keepsSource_bind; [apply keepsSource_Utils_random|].
  intros rotationSpeed.
  apply keepsSource_bind; [apply keepsSource_generateShape|].
  intros points.
  apply keepsSource_bind; [apply keepsSource_Utils_random|].
  intros angle.
  apply keepsSource_bind; [apply keepsSource_Utils_random|].
  intros speed. apply keepsSource_ret.
Qed.

(** The element a loop pushes at index [k] is the value of its body at
    [i + k], run on a fair source. *)
Lemma pushLoop_nth {A : Type} (body : nat -> Rand A) :
  (forall i, keepsSource (body i)) ->
  forall n i s k a, fair s ->
    nth_error (fst (pushLoop n i body s)) k = Some a ->
    exists s', fair s' /\ a = fst (body (i + k)%nat s').
Proof.
  intros Hkeep. induction n as [|n IH]; intros i s k a Hfair Hnth.
  - cbn [pushLoop ret fst] in Hnth. destruct k; discriminate.
  - cbn [pushLoop] in Hnth. rewrite !bind_run in Hnth.
    cbn [ret fst] in Hnth. destruct k as [|k].
    + cbn [nth_error] in Hnth. injection Hnth as <-.
      exists s. rewrite Nat.add_0_r. split; [exact Hfair | reflexivity].
    + cbn [nth_error] in Hnth. apply IH in Hnth.
      * destruct Hnth as (s' & Hf & Ha). exists s'.
        rewrite <- Nat.add_succ_comm. split; assumption.
      * apply keepsSource_fair; [apply Hkeep | exact Hfair].
Qed.

(** Over the real numbers a point placed at [(cos angle * d, sin angle * d)]
    from a centre is at distance [d] from it.  In binary64 the distance
    [Utils.distance] computes for such a point is [d] up to rounding only,
    on either side of [d]. *)
Lemma distance_polar (x y angle d : R) :
  0 <= d ->
  Utils.distance x y (x + cos angle * d) (y + sin angle * d) = d.
Proof.
  intros Hd. unfold Utils.distance. cbn zeta.
  replace ((x + cos angle * d - x) * (x + cos angle * d - x)
           + (y + sin angle * d - y) * (y + sin angle * d - y))
    with (d * d * (Rsqr (sin angle) + Rsqr (cos angle)))
    by (unfold Rsqr; ring).
  rewrite sin2_cos2, Rmult_1_r. apply sqrt_square, Hd.
Qed.

(** C7, the counterexample: the second of the three fragments of a large
    asteroid at (400, 300), when [Math.random()] gives one half, is placed
    at (390, 317.32050807568879), and [Utils.distance] from the asteroid
    to it is 20.000000000000018, which is more than the half radius
    [40 * 0.5 = 20]. *)
Lemma fragment_distance_counterexample :
  let f := Binary64.fragmentPosition cosTable sinTable 400 300 40 1 3 0.5 in
  f = Binary64.Vec.mk 390 317.32050807568879
  /\ Binary64.distance 400 300 (Binary64.Vec.x f) (Binary64.Vec.y f)
     = 20.000000000000018%float
  /\ PrimFloat.leb
       (Binary64.distance 400 300 (Binary64.Vec.x f) (Binary64.Vec.y f))
       (40 * 0.5) = false.
Proof. vm_compute. repeat split. Qed.

(** C7: whatever numbers of [[0, 1)] the random source gives, [destroy]
    leaves the asteroid not alive and returns: for a large asteroid, 2 or 3
    medium asteroids; for a medium asteroid, 2 small ones; for a small
    asteroid, none.  Fragment [i] is placed where the source computes it:
    at [this.x + Math.cos(angle) * (this.radius * 0.5)] and
    [this.y + Math.sin(angle) * (this.radius * 0.5)], where [angle] is the
    turn of the fragment ([Math.PI * 2 * i / count] for a large asteroid,
    [Math.PI * i] for a medium one) plus a random offset between -0.5 and
    0.5. *)
Theorem destroy_fragments_placed (this : Asteroid.t) (s : RandState) :
  fair s ->
  let r := fst (Asteroid.destroy this s) in
  let placed (size : string) (turn : nat -> R) :=
    forall i f, nth_error (snd r) i = Some f ->
      Asteroid.size f = size
      /\ exists offset,
           -0.5 <= offset <= 0.5
           /\ Entity.x (Asteroid.base f)
              = Entity.x (Asteroid.base this)
                + cos (turn i + offset) * (Asteroid.radius this * 0.5)
           /\ Entity.y (Asteroid.base f)
              = Entity.y (Asteroid.base this)
                + sin (turn i + offset) * (Asteroid.radius this * 0.5) in
  Entity.alive (Asteroid.base (fst r)) = false
  /\ (Asteroid.size this = "large"%string ->
      (length (snd r) = 2%nat \/ length (snd r) = 3%nat)
      /\ placed "medium"%string
           (fun i => (PI * 2 * INR i) / INR (length (snd r))))
  /\ (Asteroid.size this = "medium"%string ->
      length (snd r) = 2%nat
      /\ placed "small"%string (fun i => PI * INR i))
  /\ (Asteroid.size this = "small"%string -> snd r = []).
Proof.
  intros Hfair r placed.
  assert (Hr : r = (Asteroid.mk (Entity.destroy (Asteroid.base this))
                      (Asteroid.size this) (Asteroid.radius this)
                      (Asteroid.points this) (Asteroid.scoreValue this),
                    fst (Asteroid.createFragments
                           (Asteroid.mk (Entity.destroy (Asteroid.base this))
                              (Asteroid.size this) (Asteroid.radius this)
                              (Asteroid.points this)
                              (Asteroid.scoreValue this)) s))).
  { subst r. unfold Asteroid.destroy. rewrite bind_run. reflexivity. }
  clearbody r. subst r. subst placed. cbn [fst snd].
  split; [reflexivity|].
  unfold Asteroid.createFragments.
  cbn [Asteroid.size Asteroid.radius Asteroid.base Entity.destroy
       Entity.setAlive Entity.x Entity.y].
  assert (Hkeep : forall (size : string) (turn : nat -> R) (i : nat),
    keepsSource
      (r <- Utils.random (-0.5) 0.5 ;;
       Asteroid.new
         (Entity.x (Asteroid.base this)
          + cos (turn i + r) * (Asteroid.radius this * 0.5))
         (Entity.y (Asteroid.base this)
          + sin (turn i + r) * (Asteroid.radius this * 0.5)) size)).
  { intros size turn i.
    apply keepsSource_bind; [apply keepsSource_Utils_random|].
    intros r. apply keepsSource_Asteroid_new. }
  assert (Hplaced : forall (size : string) (turn : nat -> R) n s1 i f,
    fair s1 ->
    nth_error
      (fst (pushLoop n 0 (fun i =>
         r <- Utils.random (-0.5) 0.5 ;;
         Asteroid.new
           (Entity.x (Asteroid.base this)
            + cos (turn i + r) * (Asteroid.radius this * 0.5))
           (Entity.y (Asteroid.base this)
            + sin (turn i + r) * (Asteroid.radius this * 0.5)) size) s1)) i
    = Some f ->
    Asteroid.size f = size
    /\ exists offset,
         -0.5 <= offset <= 0.5
         /\ Entity.x (Asteroid.base f)
            = Entity.x (Asteroid.base this)
              + cos (turn i + offset) * (Asteroid.radius this * 0.5)
         /\ Entity.y (Asteroid.base f)
            = Entity.y (Asteroid.base this)
              + sin (turn i + offset) * (Asteroid.radius this * 0.5)).
  { intros size turn n s1 i f Hfair1 Hnth.
    apply pushLoop_nth in Hnth; [|apply Hkeep | exact Hfair1].
    destruct Hnth as (s' & Hfair' & ->). cbn [Nat.add].
    rewrite bind_run.
    match goal with
    | |- context [Asteroid.new ?x ?y ?sz ?st] =>
      destruct (Asteroid_new_fields x y sz st) as (Hx & Hy & Hs & _)
    end.
    rewrite Hx, Hy, Hs. split; [reflexivity|].
    exists (fst (Utils.random (-0.5) 0.5 s')).
    split; [|split; reflexivity].
    apply (proj1 (random_in_range (-0.5) 0.5 s' Hfair' ltac:(lra))). }
  split; [|split].
  - intros Hsize. rewrite Hsize. cbn [String.eqb Ascii.eqb Bool.eqb].
    rewrite bind_run.
    assert (Hfair1 : fair (snd (Utils.randomInt 2 3 s)))
      by (apply keepsSource_fair;
          [apply keepsSource_randomInt | exact Hfair]).
    rewrite pushLoop_length.
    destruct (randomInt_2_3 s Hfair) as [H|H]; rewrite H.
    + split; [left; reflexivity|].
      intros i f Hnth. cbn beta.
      change (Z.to_nat 2) with 2%nat.
      replace (INR 2) with (IZR 2) by (cbn [INR]; lra).
      exact (Hplaced "medium"%string (fun i => PI * 2 * INR i / 2)
               _ _ i f Hfair1 Hnth).
    + split; [right; reflexivity|].
      intros i f Hnth. cbn beta.
      change (Z.to_nat 3) with 3%nat.
      replace (INR 3) with (IZR 3) by (cbn [INR]; lra).
      exact (Hplaced "medium"%string (fun i => PI * 2 * INR i / 3)
               _ _ i f Hfair1 Hnth).
  - intros Hsize. rewrite Hsize. cbn [String.eqb Ascii.eqb Bool.eqb].
    split; [apply pushLoop_length|].
    intros i f Hnth.
    exact (Hplaced "small"%string (fun i => PI * INR i) _ _ i f Hfair Hnth).
  - intros Hsize. rewrite Hsize. reflexivity.
Qed.

Lemma destroy_fragments_placed_witness :
  let r := fst (Asteroid.destroy largeAsteroid halves) in
  Entity.alive (Asteroid.base (fst r)) = false
  /\ (length (snd r) = 2%nat \/ length (snd r) = 3%nat).
Proof.
  assert (Hfair : fair halves) by (intros n; cbn [halves source]; lra).
  assert (Hsize : Asteroid.size largeAsteroid = "large"%string).
  { destruct (Asteroid_new_fields 400 300 "large" halves)
      as (_ & _ & Hs & _). exact Hs. }
  destruct (destroy_fragments_placed largeAsteroid halves Hfair)
    as (Ha & Hl & _).
  split; [exact Ha | exact (proj1 (Hl Hsize))].
Defined.

(** Both counts occur: a first random number of one half gives three
    fragments, one of a quarter gives two. *)
Example randomInt_2_3_both :
  fst (Utils.randomInt 2 3 halves) = 3%Z
  /\ fst (Utils.randomInt 2 3 (mkRandState (fun _ => 1 / 4) 0)) = 2%Z.
Proof.
  unfold Utils.randomInt. rewrite !bind_run.
  cbn [Math_random ret fst halves source next].
  change (3 - 2 + 1)%Z with 2%Z.
  rewrite <- (Int_part_spec (1 / 2 * 2) 1) by lra.
  rewrite <- (Int_part_spec (1 / 4 * 2) 0) by lra.
  split; reflexivity.
Qed.

(** * Further properties of the code *)

(** ** utils.js: clamp *)

(** [clamp] keeps a value between its bounds when they are in order and
    leaves a value between them as it is; when the bounds are given in the
    wrong order it returns [max], whatever the value. *)
Theorem clamp_bounds (value min max : R) :
  (min <= max -> min <= Utils.clamp value min max <= max)
  /\ (min <= value <= max -> Utils.clamp value min max = value)
  /\ (max < min -> Utils.clamp value min max = max).
Proof.
  unfold Utils.clamp, Rmin, Rmax.
  split; [|split]; intros H; rdec.
Qed.

Lemma clamp_bounds_witness :
  0 <= Utils.clamp 900 0 800 <= 800
  /\ Utils.clamp 5 0 800 = 5
  /\ Utils.clamp 5 800 0 = 0.
Proof.
  destruct (clamp_bounds 900 0 800) as (H1 & _ & _).
  destruct (clamp_bounds 5 0 800) as (_ & H2 & _).
  destruct (clamp_bounds 5 800 0) as (_ & _ & H3).
  split; [apply H1; lra|]. split; [apply H2; lra | apply H3; lra].
Defined.

(** ** utils.js: random numbers *)

Lemma floor_below (x : R) (n : Z) :
  0 <= x < IZR n -> (0 <= Int_part x < n)%Z.
Proof.
  intros [H0 Hn]. destruct (base_Int_part x) as [Hle Hgt].
  split.
  - assert (H : (-1 < Int_part x)%Z) by (apply lt_IZR; lra). lia.
  - apply lt_IZR. lra.
Qed.

(** On such a source, [randomInt min max] is an integer between its bounds,
    both included. *)
Theorem randomInt_range (min max : Z) (s : RandState) :
  fair s -> (min <= max)%Z ->
  (min <= fst (Utils.randomInt min max s) <= max)%Z.
Proof.
  intros Hfair Hle. unfold Utils.randomInt. rewrite bind_run.
  cbn [Math_random ret fst].
  pose proof (Hfair (next s)) as Hr.
  set (r := source s (next s)) in *.
  assert (Hn : 1 <= IZR (max - min + 1)) by (apply IZR_le; lia).
  assert (Hx : 0 <= r * IZR (max - min + 1) < IZR (max - min + 1)) by nra.
  apply floor_below in Hx. lia.
Qed.

Lemma randomInt_range_witness :
  (8 <= fst (Utils.randomInt 8 12 halves) <= 12)%Z.
Proof.
  apply randomInt_range; [intros n; cbn [halves source]; lra | lia].
Defined.

(** On such a source, [randomChoice] returns an element of a non-empty
    array; on the empty array it returns [undefined]. *)
Theorem randomChoice_member {A : Type} (array : list A) (s : RandState) :
  fair s ->
  (array <> [] ->
   exists a, fst (Utils.randomChoice array s) = Some a /\ In a array)
  /\ (array = [] -> fst (Utils.randomChoice array s) = None).
Proof.
  intros Hfair. unfold Utils.randomChoice. rewrite bind_run.
  cbn [Math_random ret fst].
  pose proof (Hfair (next s)) as Hr.
  set (r := source s (next s)) in *.
  split.
  - intros Hne.
    assert (Hlen : (0 < length array)%nat)
      by (destruct array; [contradiction | cbn; lia]).
    assert (Hpos : 1 <= INR (length array))
      by (change 1 with (INR 1); apply le_INR; lia).
    assert (Hx : 0 <= r * INR (length array)
                 < IZR (Z.of_nat (length array)))
      by (rewrite <- INR_IZR_INZ; nra).
    apply floor_below in Hx.
    unfold JS.index.
    destruct (Z.ltb_spec (Int_part (r * INR (length array))) 0) as [Hn|_];
      [lia|].
    destruct (nth_error array
                (Z.to_nat (Int_part (r * INR (length array))))) as [a|] eqn:Hnth.
    + exists a. split; [reflexivity|]. eapply nth_error_In, Hnth.
    + apply nth_error_None in Hnth. lia.
  - intros ->. cbn [length INR]. unfold JS.index.
    destruct (Int_part (r * 0) <? 0)%Z; [reflexivity|].
    destruct (Z.to_nat (Int_part (r * 0))); reflexivity.
Qed.

Lemma randomChoice_member_witness :
  exists a,
    fst (Utils.randomChoice
           ["scout_saucer"; "hunter_drone"; "marauder_frigate"]%string halves)
    = Some a
    /\ In a ["scout_saucer"; "hunter_drone"; "marauder_frigate"]%string.
Proof.
  apply randomChoice_member; [intros n; cbn [halves source]; lra|].
  discriminate.
Defined.

(** ** utils.js: the timer *)

Lemma timer_inactive (this : Utils.timer.t) (deltas : list R) :
  Utils.timer.active this = false ->
  timerUpdates this deltas = (this, repeat false (length deltas)).
Proof.
  intros Hoff. induction deltas as [|d rest IH]; [reflexivity|].
  cbn [timerUpdates]. unfold Utils.timer.update. rewrite Hoff. cbn [negb].
  rewrite IH. reflexivity.
Qed.

Lemma count_repeat_false (n : nat) :
  count_occ bool_dec (repeat false n) true = O.
Proof. induction n as [|n IH]; [reflexivity | exact IH]. Qed.

(** A timer runs out at most once: over any sequence of calls of [update],
    at most one returns [true].  A running timer whose elapsed time is
    below its duration returns [true] exactly once, and ends stopped, when
    the times it is given, added to the elapsed time one after the other as
    [update] adds them, reach the duration; a stopped timer ignores every
    call. *)
Theorem timer_fires_once (this : Utils.timer.t) (deltas : list R) :
  (count_occ bool_dec (snd (timerUpdates this deltas)) true <= 1)%nat
  /\ (Utils.timer.active this = true ->
      Utils.timer.elapsed this < Utils.timer.duration this ->
      fold_left Rplus deltas (Utils.timer.elapsed this)
        >= Utils.timer.duration this ->
      count_occ bool_dec (snd (timerUpdates this deltas)) true = 1%nat
      /\ Utils.timer.active (fst (timerUpdates this deltas)) = false)
  /\ (Utils.timer.active this = false ->
      timerUpdates this deltas = (this, repeat false (length deltas))).
Proof.
  split; [|split; [|apply timer_inactive]].
  - revert this. induction deltas as [|d rest IH]; intros this.
    + cbn. lia.
    + cbn [timerUpdates]. unfold Utils.timer.update.
      destruct (Utils.timer.active this); cbn [negb].
      * destruct (Rge_dec (Utils.timer.elapsed this + d)
                    (Utils.timer.duration this)).
        -- rewrite timer_inactive by reflexivity. cbn [snd].
           rewrite count_occ_cons_eq by reflexivity.
           rewrite count_repeat_false. lia.
        -- specialize (IH (Utils.timer.mk (Utils.timer.duration this)
                             (Utils.timer.elapsed this + d) true)).
           destruct (timerUpdates _ rest) as [last flags]. cbn [snd] in *.
           rewrite count_occ_cons_neq by discriminate. exact IH.
      * specialize (IH this).
        destruct (timerUpdates this rest) as [last flags]. cbn [snd] in *.
        rewrite count_occ_cons_neq by discriminate. exact IH.
  - revert this. induction deltas as [|d rest IH];
      intros this Hon Hlow Hsum.
    + cbn [fold_left] in Hsum. exfalso. lra.
    + cbn [timerUpdates]. unfold Utils.timer.update. rewrite Hon.
      cbn [negb]. cbn [fold_left] in Hsum.
      destruct (Rge_dec (Utils.timer.elapsed this + d)
                  (Utils.timer.duration this)) as [Hge|Hlt].
      * rewrite timer_inactive by reflexivity. cbn [fst snd].
        rewrite count_occ_cons_eq by reflexivity.
        rewrite count_repeat_false. split; reflexivity.
      * specialize (IH (Utils.timer.mk (Utils.timer.duration this)
                          (Utils.timer.elapsed this + d) true)).
        cbn [Utils.timer.active Utils.timer.elapsed Utils.timer.duration]
          in IH.
        destruct IH as [IHc IHa]; [reflexivity | lra | exact Hsum |].
        destruct (timerUpdates _ rest) as [last flags]. cbn [fst snd] in *.
        rewrite count_occ_cons_neq by discriminate. split; assumption.
Qed.

Lemma timer_fires_once_witness :
  let run := timerUpdates (Utils.timer.start (Utils.timer.new 1000))
               [400; 400; 400; 400] in
  count_occ bool_dec (snd run) true = 1%nat
  /\ Utils.timer.active (fst run) = false.
Proof.
  refine (proj1 (proj2 (timer_fires_once
            (Utils.timer.start (Utils.timer.new 1000)) [400; 400; 400; 400]))
            eq_refl _ _);
    cbv [Utils.timer.start Utils.timer.new Utils.timer.elapsed
         Utils.timer.duration fold_left]; lra.
Defined.

(** While a timer started with a positive duration is fed non-negative
    times, its progress stays in [[0, 1)] and its remaining time between 0
    and the duration: a timer that is still running has not reached its
    duration. *)
Theorem timer_progress_range (duration : R) (deltas : list R) :
  0 < duration -> Forall (fun d => 0 <= d) deltas ->
  let this := fst (timerUpdates (Utils.timer.start (Utils.timer.new duration))
                     deltas) in
  0 <= Utils.timer.getProgress this < 1
  /\ 0 <= Utils.timer.getRemainingTime this <= duration.
Proof.
  intros Hd Hpos this.
  assert (Hinv : forall tm,
    Utils.timer.duration tm = duration ->
    (Utils.timer.active tm = true ->
     0 <= Utils.timer.elapsed tm < duration) ->
    let last := fst (timerUpdates tm deltas) in
    Utils.timer.duration last = duration
    /\ (Utils.timer.active last = true ->
        0 <= Utils.timer.elapsed last < duration)).
  { induction Hpos as [|d rest Hd0 Hrest IH]; intros tm Hdur Hact.
    - cbn. split; assumption.
    - cbn [timerUpdates]. unfold Utils.timer.update.
      destruct (Utils.timer.active tm) eqn:Hon; cbn [negb].
      + specialize (Hact eq_refl). rewrite Hdur.
        destruct (Rge_dec (Utils.timer.elapsed tm + d) duration) as [Hge|Hlt].
        * rewrite timer_inactive by reflexivity. cbn.
          split; [reflexivity | discriminate].
        * specialize (IH (Utils.timer.mk duration
                            (Utils.timer.elapsed tm + d) true)).
          cbn [Utils.timer.duration Utils.timer.active Utils.timer.elapsed]
            in IH.
          destruct (timerUpdates _ rest) as [last flags]. cbn [fst] in *.
          apply IH; [reflexivity | intros _; lra].
      + rewrite timer_inactive by exact Hon. cbn [fst].
        split; [exact Hdur | rewrite Hon; discriminate]. }
  destruct (Hinv (Utils.timer.start (Utils.timer.new duration)))
    as [Hdur Hact]; [reflexivity | cbn; intros _; lra |].
  fold this in Hdur, Hact.
  unfold Utils.timer.getProgress, Utils.timer.getRemainingTime.
  destruct (Utils.timer.active this); [|lra].
  specialize (Hact eq_refl). rewrite Hdur.
  split.
  - split.
    + apply Rmult_le_pos; [lra | apply Rlt_le, Rinv_0_lt_compat, Hd].
    + apply Rmult_lt_reg_r with duration; [exact Hd|].
      unfold Rdiv. rewrite Rmult_assoc, Rinv_l by lra. lra.
  - unfold Rmax. destruct (Rle_dec 0 (duration - Utils.timer.elapsed this));
      lra.
Qed.

Lemma timer_progress_range_witness :
  let this := fst (timerUpdates (Utils.timer.start (Utils.timer.new 1000))
                     [400; 400]) in
  0 <= Utils.timer.getProgress this < 1
  /\ 0 <= Utils.timer.getRemainingTime this <= 1000.
Proof.
  apply timer_progress_range; [lra|].
  repeat constructor; lra.
Defined.

(** ** The physics engine: the collision test *)

(** [checkCollision] gives the same answer for the two entities in either
    order, and is false when either has no physics component or a collision
    radius of zero. *)
Theorem checkCollision_symmetric (e1 e2 : Entity.t) :
  PhysicsEngine.checkCollision e1 e2 = PhysicsEngine.checkCollision e2 e1
  /\ (Entity.physics e1 = None -> PhysicsEngine.checkCollision e1 e2 = false)
  /\ (option_map PhysicsComponent.collisionRadius (Entity.physics e1)
      = Some 0 ->
      PhysicsEngine.checkCollision e1 e2 = false).
Proof.
  unfold PhysicsEngine.checkCollision.
  destruct (Entity.physics e1) as [p1|], (Entity.physics e2) as [p2|];
    cbn [option_map].
  - split; [|split; [discriminate|]].
    + rewrite orb_comm.
      destruct (negb (JS.truthy (PhysicsComponent.collisionRadius p2))
                || negb (JS.truthy (PhysicsComponent.collisionRadius p1)));
        [reflexivity|].
      unfold Utils.circleCollision.
      replace (Utils.distance (Entity.x e2) (Entity.y e2)
                 (Entity.x e1) (Entity.y e1))
        with (Utils.distance (Entity.x e1) (Entity.y e1)
                (Entity.x e2) (Entity.y e2))
        by (unfold Utils.distance; cbn zeta; f_equal; ring).
      rewrite (Rplus_comm (PhysicsComponent.collisionRadius p2)).
      reflexivity.
    + intros H. injection H as H. rewrite H. unfold JS.truthy.
      destruct (Req_dec_T 0 0) as [_|Hn]; [reflexivity | exfalso; lra].
  - split; [reflexivity|]. split; [discriminate|].
    intros H. injection H as H. reflexivity.
  - split; [reflexivity|]. split; [reflexivity | discriminate].
  - split; [reflexivity|]. split; [reflexivity | discriminate].
Qed.

Lemma checkCollision_symmetric_witness :
  PhysicsEngine.checkCollision (Entity.new 1 2 Entity.noOptions) (ball 0 1)
  = false.
Proof.
  apply (proj1 (proj2 (checkCollision_symmetric
                         (Entity.new 1 2 Entity.noOptions) (ball 0 1)))).
  reflexivity.
Defined.

(** ** Health *)

(** Damage and healing by non-negative amounts keep the health between 0
    and its maximum, and the constructor starts it there when the maximum
    asked for is not negative. *)
Theorem health_stays_in_range (e : Entity.t) (amount : R) :
  healthInRange e -> 0 <= amount ->
  healthInRange (fst (Entity.takeDamage e amount))
  /\ healthInRange (Entity.heal e amount)
  /\ (forall x y options,
        (forall hmax, Entity.o_health options = Some (Some hmax) ->
                      0 <= hmax) ->
        healthInRange (Entity.new x y options)).
Proof.
  intros Hin Hpos. unfold healthInRange in *. split; [|split].
  - unfold Entity.takeDamage.
    destruct (Entity.health e) as [h|] eqn:Hh;
      [|cbn [fst]; rewrite Hh; exact I].
    destruct (HealthComponent.invulnerable h);
      [cbn [fst]; rewrite Hh; exact Hin|].
    destruct (Rle_dec (HealthComponent.current h - amount) 0) as [Hd|Hs];
      cbn [fst Entity.destroy Entity.setAlive Entity.setHealth Entity.health
           HealthComponent.current HealthComponent.max]; lra.
  - unfold Entity.heal.
    destruct (Entity.health e) as [h|] eqn:Hh; [|rewrite Hh; exact I].
    cbn [Entity.setHealth Entity.health HealthComponent.current
         HealthComponent.max].
    unfold Rmin. destruct (Rle_dec _ _); lra.
  - intros x y options Hmax. unfold Entity.new. cbn [Entity.health].
    destruct (Entity.o_health options) as [[hmax|]|]; cbn [option_map];
      try exact I; cbn [HealthComponent.current HealthComponent.max JS.or].
    + specialize (Hmax hmax eq_refl).
      destruct (Req_dec_T hmax 0); lra.
    + lra.
Qed.

Lemma health_stays_in_range_witness :
  healthInRange (fst (Entity.takeDamage wounded 4))
  /\ healthInRange (Entity.heal wounded 4).
Proof.
  destruct (health_stays_in_range wounded 4) as (H1 & H2 & _).
  - cbv [healthInRange wounded Entity.setHealth Entity.health
         HealthComponent.current HealthComponent.max]. lra.
  - lra.
  - split; assumption.
Defined.

(** A hit the entity survives makes it invulnerable for 500 ms: an
    [update] of less than 500 ms leaves it ignoring every damage, an
    [update] of 500 ms or more makes it vulnerable again. *)
Theorem invulnerability_window (e : Entity.t) (h : HealthComponent.t)
  (amount deltaTime : R) :
  Entity.health e = Some h ->
  HealthComponent.invulnerable h = false ->
  amount < HealthComponent.current h ->
  let hit := fst (Entity.takeDamage e amount) in
  (deltaTime < 500 ->
   forall next,
     Entity.takeDamage (Entity.update hit deltaTime) next
     = (Entity.update hit deltaTime, false))
  /\ (500 <= deltaTime ->
      option_map HealthComponent.invulnerable
        (Entity.health (Entity.update hit deltaTime)) = Some false).
Proof.
  intros Hh Hi Hlt hit. subst hit.
  rewrite (takeDamage_survived e h amount Hh Hi Hlt). cbn [fst].
  assert (Hup : Entity.health
    (Entity.update
       (Entity.setHealth e
          (Some (HealthComponent.mk (HealthComponent.current h - amount)
                   (HealthComponent.max h) true 500))) deltaTime)
    = Some (HealthComponent.mk (HealthComponent.current h - amount)
              (HealthComponent.max h)
              (if Rle_dec (500 - deltaTime) 0 then false else true)
              (500 - deltaTime))).
  { unfold Entity.update.
    destruct (JS.truthy _); reflexivity. }
  split.
  - intros Hshort next. eapply takeDamage_invulnerable; [exact Hup|].
    cbn [HealthComponent.invulnerable].
    destruct (Rle_dec (500 - deltaTime) 0); [exfalso; lra | reflexivity].
  - intros Hlong. rewrite Hup. cbn [option_map HealthComponent.invulnerable].
    destruct (Rle_dec (500 - deltaTime) 0); [reflexivity | exfalso; lra].
Qed.

Lemma invulnerability_window_witness :
  let hit := fst (Entity.takeDamage wounded 4) in
  (forall next,
     Entity.takeDamage (Entity.update hit 499) next
     = (Entity.update hit 499, false))
  /\ option_map HealthComponent.invulnerable
       (Entity.health (Entity.update hit 500)) = Some false.
Proof.
  assert (Hlt : 4 < HealthComponent.current (HealthComponent.mk 10 100 false 0))
    by (cbn; lra).
  split.
  - apply (proj1 (invulnerability_window wounded _ 4 499
                    eq_refl eq_refl Hlt)). lra.
  - apply (proj2 (invulnerability_window wounded _ 4 500
                    eq_refl eq_refl Hlt)). lra.
Defined.

(** Nothing revives an entity: once [alive] is false it stays false under
    [update], [takeDamage], [heal], the physics step and applied forces. *)
Theorem dead_stays_dead (e : Entity.t) :
  Entity.alive e = false ->
  (forall deltaTime, Entity.alive (Entity.update e deltaTime) = false)
  /\ (forall amount, Entity.alive (fst (Entity.takeDamage e amount)) = false)
  /\ (forall amount, Entity.alive (Entity.heal e amount) = false)
  /\ (forall this deltaTime,
        Entity.alive (PhysicsEngine.updateEntity this e deltaTime) = false)
  /\ (forall fx fy, Entity.alive (PhysicsEngine.applyForce e fx fy) = false).
Proof.
  intros Hdead. repeat split.
  - intros deltaTime. unfold Entity.update.
    destruct (JS.truthy _);
      cbn [Entity.health Entity.setRotation Entity.setAnimationTime];
      destruct (Entity.health e) as [h|];
      try destruct (HealthComponent.invulnerable h); exact Hdead.
  - intros amount. unfold Entity.takeDamage.
    destruct (Entity.health e) as [h|]; [|exact Hdead].
    destruct (HealthComponent.invulnerable h); [exact Hdead|].
    destruct (Rle_dec _ 0); [reflexivity | exact Hdead].
  - intros amount. unfold Entity.heal.
    destruct (Entity.health e); exact Hdead.
  - intros this deltaTime. unfold PhysicsEngine.updateEntity.
    destruct (Entity.physics e); exact Hdead.
  - intros fx fy. unfold PhysicsEngine.applyForce.
    destruct (Entity.physics e); exact Hdead.
Qed.

Lemma dead_stays_dead_witness :
  Entity.alive (Entity.heal (fst (Entity.takeDamage wounded 15)) 100) = false.
Proof.
  assert (Hdead : Entity.alive (fst (Entity.takeDamage wounded 15)) = false).
  { unfold Entity.takeDamage, wounded.
    cbn [Entity.health Entity.setHealth HealthComponent.invulnerable
         HealthComponent.current].
    destruct (Rle_dec (10 - 15) 0) as [_|Hn]; [reflexivity | exfalso; lra]. }
  apply (proj1 (proj2 (proj2 (dead_stays_dead _ Hdead)))).
Defined.

(** ** The player's weapon and shield *)

Lemma cooledHeat_bounds (w : Player.weaponState) (deltaTime : R) :
  0 <= Player.cooldownRate w -> 0 <= deltaTime -> 0 <= Player.heat w ->
  0 <= Player.cooledHeat w deltaTime <= Player.heat w.
Proof.
  intros Hrate Hdt Hheat. unfold Player.cooledHeat.
  assert (Hc : 0 <= Player.cooldownRate w * (deltaTime / 1000))
    by (apply Rmult_le_pos; lra).
  destruct (Rgt_dec (Player.heat w) 0); [|lra].
  unfold Rmax. destruct (Rle_dec _ _); lra.
Qed.

(** With a positive maximum heat and non-negative heat per shot, cooldown
    rate and frame time, [fire] and [updateWeapon] keep the heat of the
    weapon at 0 or more, and below the maximum whenever the weapon is not
    overheated; the weapon of a new player starts within these bounds. *)
Theorem weapon_heat_bounded (p : Player.t) (deltaTime now : R)
  (game : Game.t) :
  0 < Player.maxHeat (Player.weapon p) ->
  0 <= Player.heatPerShot (Player.weapon p) ->
  0 <= Player.cooldownRate (Player.weapon p) ->
  0 <= deltaTime ->
  heatBounded (Player.weapon p) ->
  heatBounded (Player.weapon (fst (Player.fire p now game)))
  /\ heatBounded
       (Player.weapon (fst (Player.updateWeapon p deltaTime now game)))
  /\ (forall x y, heatBounded (Player.weapon (Player.new x y))).
Proof.
  intros Hmax Hshot Hrate Hdt [Hrange Hcool].
  assert (Hfire : forall q : Player.t,
    0 < Player.maxHeat (Player.weapon q) ->
    0 <= Player.heatPerShot (Player.weapon q) ->
    heatBounded (Player.weapon q) ->
    heatBounded (Player.weapon (fst (Player.fire q now game)))).
  { intros q Hm Hs [Hr Hc]. unfold Player.fire.
    destruct (Rlt_dec _ _); cbn [orb]; [exact (conj Hr Hc)|].
    destruct (Player.overheated (Player.weapon q)) eqn:Hhot.
    { unfold heatBounded. cbn [fst]. rewrite Hhot. exact (conj Hr Hc). }
    specialize (Hc eq_refl). cbn [fst].
    cbn [Player.weapon Player.setWeapon]. unfold heatBounded.
    cbn [Player.heat Player.maxHeat Player.heatPerShot Player.overheated].
    split; [lra|].
    destruct (Rge_dec _ _); [discriminate | intros _; lra]. }
  split; [apply Hfire; [exact Hmax | exact Hshot | split; assumption]|].
  split.
  - unfold Player.updateWeapon.
    pose proof (cooledHeat_bounds (Player.weapon p) deltaTime Hrate Hdt
                  Hrange) as Hcooled.
    set (c := Player.cooledHeat (Player.weapon p) deltaTime) in *.
    match goal with
    | |- context [Player.setWeapon p ?w] =>
      assert (Hb : heatBounded w)
    end.
    { unfold heatBounded.
      cbn [Player.heat Player.maxHeat Player.heatPerShot Player.overheated].
      split; [lra|].
      destruct (Player.overheated (Player.weapon p)); cbn [andb].
      - destruct (Rlt_dec c (Player.maxHeat (Player.weapon p) * 0.3));
          [intros _; lra | discriminate].
      - intros _. specialize (Hcool eq_refl). lra. }
    destruct (Player.autoFire _); [|exact Hb].
    apply Hfire; [exact Hmax | exact Hshot | exact Hb].
  - intros x y. unfold heatBounded, Player.new.
    cbn [Player.weapon Player.heat Player.maxHeat Player.heatPerShot
         Player.overheated].
    split; [lra | intros _; lra].
Qed.

Lemma weapon_heat_bounded_witness :
  heatBounded (Player.weapon (fst (Player.fire (Player.new 400 300) 200
                                     emptyGame)))
  /\ heatBounded
       (Player.weapon (fst (Player.updateWeapon (Player.new 400 300) 16 200
                              emptyGame))).
Proof.
  assert (Hb : heatBounded (Player.weapon (Player.new 400 300))).
  { unfold heatBounded, Player.new.
    cbn [Player.weapon Player.heat Player.maxHeat Player.heatPerShot
         Player.overheated].
    split; [lra | intros _; lra]. }
  destruct (weapon_heat_bounded (Player.new 400 300) 16 200 emptyGame)
    as (H1 & H2 & _);
    try exact Hb;
    try (cbv [Player.new Player.weapon Player.maxHeat Player.heatPerShot
              Player.cooldownRate]; lra).
  split; assumption.
Defined.

(** The shield takes damage before the health does.  For a non-negative
    amount and a shield that is up: damage the shield can hold leaves the
    entity untouched, and a larger damage empties the shield and passes
    only the rest on to the health.  The shield is charged even while the
    player is invulnerable, although the health then ignores the rest. *)
Theorem shield_absorbs_first (this : PlayerShield.t) (amount now : R) :
  0 < Shield.current (PlayerShield.shield this) -> 0 <= amount ->
  let r := PlayerShield.takeDamage this amount now in
  (amount <= Shield.current (PlayerShield.shield this) ->
   PlayerShield.base (fst r) = PlayerShield.base this
   /\ snd r = false
   /\ Shield.current (PlayerShield.shield (fst r))
      = Shield.current (PlayerShield.shield this) - amount)
  /\ (Shield.current (PlayerShield.shield this) < amount ->
      Shield.current (PlayerShield.shield (fst r)) = 0
      /\ (PlayerShield.base (fst r), snd r)
         = Entity.takeDamage (PlayerShield.base this)
             (amount - Shield.current (PlayerShield.shield this)))
  /\ Shield.lastDamageTime (PlayerShield.shield (fst r)) = now
  /\ (forall h,
        Entity.health (PlayerShield.base this) = Some h ->
        HealthComponent.invulnerable h = true ->
        PlayerShield.base (fst r) = PlayerShield.base this
        /\ Shield.current (PlayerShield.shield (fst r))
           = Shield.current (PlayerShield.shield this)
             - Rmin amount (Shield.current (PlayerShield.shield this))).
Proof.
  intros Hup Hpos r. subst r. unfold PlayerShield.takeDamage.
  destruct (Rgt_dec (Shield.current (PlayerShield.shield this)) 0)
    as [_|Hn]; [|exfalso; lra].
  unfold Rmin.
  destruct (Rle_dec amount (Shield.current (PlayerShield.shield this)))
    as [Hfits|Hmore].
  - destruct (Rle_dec (amount - amount) 0) as [_|Hn]; [|exfalso; lra].
    cbn [fst snd PlayerShield.base PlayerShield.shield Shield.current
         Shield.lastDamageTime].
    repeat split; try reflexivity; intros; exfalso; lra.
  - destruct (Rle_dec (amount - Shield.current (PlayerShield.shield this)) 0)
      as [Hn|_]; [exfalso; lra|].
    destruct (Entity.takeDamage (PlayerShield.base this)
                (amount - Shield.current (PlayerShield.shield this)))
      as [e died] eqn:Htake.
    cbn [fst snd PlayerShield.base PlayerShield.shield Shield.current
         Shield.lastDamageTime].
    split; [intros; exfalso; lra|].
    split; [intros _; split; [ring | reflexivity]|].
    split; [reflexivity|].
    intros h Hh Hinv.
    rewrite (takeDamage_invulnerable _ h _ Hh Hinv) in Htake.
    injection Htake as <- _. split; reflexivity.
Qed.

(** A player with a full shield and full health. *)
Lemma shield_absorbs_first_witness :
  let this := PlayerShield.mk Shield.initial (Player.base (Player.new 400 300))
  in
  PlayerShield.base (fst (PlayerShield.takeDamage this 25 1000))
  = PlayerShield.base this
  /\ snd (PlayerShield.takeDamage this 25 1000) = false
  /\ Shield.current (PlayerShield.shield
                       (fst (PlayerShield.takeDamage this 25 1000)))
     = 50 - 25.
Proof.
  refine (proj1 (shield_absorbs_first
                   (PlayerShield.mk Shield.initial
                      (Player.base (Player.new 400 300))) 25 1000 _ _) _);
    cbv [PlayerShield.shield Shield.initial Shield.current]; lra.
Defined.

(** The shield stays between 0 and its maximum under damage of a
    non-negative amount and under regeneration at a non-negative rate, and
    it does not regenerate until more than [regenDelay] has passed since
    the last damage. *)
Theorem shield_stays_in_range (this : PlayerShield.t)
  (amount deltaTime now : R) :
  0 <= Shield.current (PlayerShield.shield this)
    <= Shield.max (PlayerShield.shield this) ->
  0 <= amount -> 0 <= deltaTime ->
  0 <= Shield.regenRate (PlayerShield.shield this) ->
  (let s := PlayerShield.shield (fst (PlayerShield.takeDamage this amount now))
   in 0 <= Shield.current s <= Shield.max s)
  /\ (let s := PlayerShield.shield (PlayerShield.updateShield this deltaTime now)
      in Shield.current (PlayerShield.shield this) <= Shield.current s
         <= Shield.max s)
  /\ (now - Shield.lastDamageTime (PlayerShield.shield this)
      <= Shield.regenDelay (PlayerShield.shield this) ->
      PlayerShield.updateShield this deltaTime now = this).
Proof.
  intros Hrange Hpos Hdt Hrate. split; [|split].
  - unfold PlayerShield.takeDamage, Rmin.
    destruct (Rgt_dec _ 0).
    + destruct (Rle_dec amount _);
        destruct (Rle_dec _ 0);
        try destruct (Entity.takeDamage _ _);
        cbn [fst PlayerShield.shield Shield.current Shield.max]; lra.
    + destruct (Entity.takeDamage _ _).
      cbn [fst PlayerShield.shield]. exact Hrange.
  - unfold PlayerShield.updateShield.
    assert (Hadd : 0 <= Shield.regenRate (PlayerShield.shield this)
                        * (deltaTime / 1000))
      by (apply Rmult_le_pos; lra).
    destruct (Rlt_dec _ _); destruct (Rgt_dec _ _); cbn [andb];
      cbn [PlayerShield.shield Shield.current Shield.max]; try lra.
    unfold Rmin. destruct (Rle_dec _ _); lra.
  - intros Hrecent. unfold PlayerShield.updateShield.
    destruct (Rlt_dec _ _); destruct (Rgt_dec _ _); cbn [andb];
      try reflexivity; exfalso; lra.
Qed.

Lemma shield_stays_in_range_witness :
  let this := PlayerShield.mk Shield.initial (Player.base (Player.new 400 300))
  in PlayerShield.updateShield this 16 1500 = this.
Proof.
  refine (proj2 (proj2 (shield_stays_in_range
                          (PlayerShield.mk Shield.initial
                             (Player.base (Player.new 400 300)))
                          0 16 1500 _ _ _ _)) _);
    cbv [PlayerShield.shield Shield.initial Shield.current Shield.max
         Shield.regenRate Shield.lastDamageTime Shield.regenDelay]; lra.
Defined.

(** ** Projectiles and the blaster *)

Lemma Entity_update_alive (e : Entity.t) (deltaTime : R) :
  Entity.alive (Entity.update e deltaTime) = Entity.alive e
  /\ Entity.x (Entity.update e deltaTime) = Entity.x e
  /\ Entity.y (Entity.update e deltaTime) = Entity.y e.
Proof.
  unfold Entity.update.
  destruct (JS.truthy _);
    cbn [Entity.health Entity.setRotation Entity.setAnimationTime];
    destruct (Entity.health e) as [h|];
    try destruct (HealthComponent.invulnerable h); repeat split.
Qed.

(** The projectile's own [update] leaves it alive exactly when it was
    alive, its age stays below its lifetime, and it is no more than 50
    outside the canvas on any side. *)
Theorem projectile_survives_iff (p : Projectile.t)
  (deltaTime canvasWidth canvasHeight : R) :
  Entity.alive (Projectile.base
                  (Projectile.update p deltaTime canvasWidth canvasHeight))
  = true
  <-> Entity.alive (Projectile.base p) = true
      /\ Projectile.age p + deltaTime < Projectile.lifetime p
      /\ -50 <= Entity.x (Projectile.base p) <= canvasWidth + 50
      /\ -50 <= Entity.y (Projectile.base p) <= canvasHeight + 50.
Proof.
  destruct (Entity_update_alive (Projectile.base p) deltaTime)
    as (Ha & Hx & Hy).
  unfold Projectile.update. cbn [Projectile.base].
  destruct (Rge_dec _ _) as [Hold|Hyoung].
  - split.
    + destruct (_ || _ || _ || _); cbn; discriminate.
    + intros (_ & Hlt & _). exfalso. lra.
  - rewrite Hx, Hy.
    set (x := Entity.x (Projectile.base p)).
    set (y := Entity.y (Projectile.base p)).
    match goal with
    | |- context [if ?b then Entity.destroy _ else _] => set (off := b)
    end.
    assert (Hoff : off = false
                   <-> -50 <= x <= canvasWidth + 50
                       /\ -50 <= y <= canvasHeight + 50).
    { subst off.
      destruct (Rlt_dec x (-50)); destruct (Rgt_dec x (canvasWidth + 50));
        destruct (Rlt_dec y (-50)); destruct (Rgt_dec y (canvasHeight + 50));
        cbn [orb];
        (split; [intros Hf; try discriminate Hf; lra
                | intros [[? ?] [? ?]]; try reflexivity; exfalso; lra]). }
    destruct off; cbn [Entity.destroy Entity.setAlive Entity.alive].
    + split; [discriminate|]. intros (_ & _ & Hb).
      apply Hoff in Hb. discriminate.
    + rewrite Ha. split.
      * intros Halive. split; [exact Halive|]. split; [lra|].
        apply Hoff. reflexivity.
      * intros (Halive & _). exact Halive.
Qed.

Lemma projectile_survives_iff_witness :
  Entity.alive
    (Projectile.base
       (Projectile.update
          (Projectile.new 100 100
             (Projectile.mkOptions None None None None (Some 1000) None))
          400 800 600))
  = true.
Proof.
  apply projectile_survives_iff.
  cbv [Projectile.new Projectile.age Projectile.lifetime Projectile.base
       Projectile.o_lifetime Entity.new Entity.setPhysics Entity.alive
       Entity.x Entity.y].
  rewrite or_given by lra. repeat split; lra.
Defined.

Lemma Projectile_update_dead (p : Projectile.t)
  (deltaTime canvasWidth canvasHeight : R) :
  Entity.alive (Projectile.base p) = false
  \/ Projectile.age p + deltaTime >= Projectile.lifetime p ->
  Entity.alive (Projectile.base
                  (Projectile.update p deltaTime canvasWidth canvasHeight))
  = false.
Proof.
  intros Hwhy.
  destruct (Entity_update_alive (Projectile.base p) deltaTime)
    as (Ha & _ & _).
  unfold Projectile.update. cbn [Projectile.base].
  destruct (Rge_dec _ _) as [Hold|Hyoung].
  - destruct (_ || _ || _ || _); reflexivity.
  - destruct Hwhy as [Hdead|Hold]; [|exfalso; lra].
    destruct (_ || _ || _ || _); [reflexivity|].
    rewrite Ha. exact Hdead.
Qed.

(** A projectile does not outlive its lifetime: after any non-empty
    sequence of updates whose times, added to its age one after the other
    as [update] adds them, bring the age to the lifetime or beyond, it is
    not alive. *)
Theorem projectile_expires (deltas : list R) :
  forall (p : Projectile.t) (canvasWidth canvasHeight : R),
  deltas <> [] ->
  fold_left Rplus deltas (Projectile.age p) >= Projectile.lifetime p ->
  Entity.alive
    (Projectile.base (projectileUpdates p deltas canvasWidth canvasHeight))
  = false.
Proof.
  induction deltas as [|d rest IH]; intros p w h Hne Hsum; [contradiction|].
  cbn [projectileUpdates]. cbn [fold_left] in Hsum.
  destruct rest as [|d2 rest].
  - cbn [projectileUpdates]. cbn [fold_left] in Hsum.
    apply Projectile_update_dead. right. exact Hsum.
  - apply IH; [discriminate | exact Hsum].
Qed.

Lemma projectile_expires_witness :
  Entity.alive
    (Projectile.base
       (projectileUpdates
          (Projectile.new 100 100
             (Projectile.mkOptions None None None None (Some 1000) None))
          [400; 400; 400] 800 600))
  = false.
Proof.
  apply projectile_expires; [discriminate|].
  cbv [Projectile.new Projectile.age Projectile.lifetime
       Projectile.o_lifetime fold_left].
  rewrite or_given by lra. lra.
Defined.

(** The projectile a blaster fires carries the damage and the lifetime of
    the weapon, belongs to the firing entity, heads where the owner heads
    and starts on the owner's rim, at
    [owner.x + Math.cos(owner.rotation) * owner.size] and
    [owner.y + Math.sin(owner.rotation) * owner.size]; it is a live entity
    of type projectile, of collision radius 3, that does not wrap around
    the screen. *)
Theorem blaster_projectile (this : Weapon.t) (owner : Owner) (now : R)
  (game : Game.t) :
  Weapon.canFire this now = true ->
  Weapon.damage this <> 0 -> Weapon.projectileLifetime this <> 0 ->
  exists p,
    Game.projectiles (Game.entities (snd (Blaster.fire this owner now game)))
    = Game.projectiles (Game.entities game) ++ [p]
    /\ Projectile.damage p = Weapon.damage this
    /\ Projectile.lifetime p = Weapon.projectileLifetime this
    /\ Projectile.age p = 0
    /\ Projectile.owner p = Some (entity owner)
    /\ Entity.rotation (Projectile.base p) = Entity.rotation (entity owner)
    /\ Entity.x (Projectile.base p)
       = Entity.x (entity owner)
         + cos (Entity.rotation (entity owner)) * size owner
    /\ Entity.y (Projectile.base p)
       = Entity.y (entity owner)
         + sin (Entity.rotation (entity owner)) * size owner
    /\ Entity.type (Projectile.base p) = "projectile"%string
    /\ Entity.alive (Projectile.base p) = true
    /\ option_map PhysicsComponent.screenWrap
         (Entity.physics (Projectile.base p)) = Some false
    /\ option_map PhysicsComponent.collisionRadius
         (Entity.physics (Projectile.base p)) = Some 3.
Proof.
  intros Hcan Hdamage Hlife.
  unfold Blaster.fire, Weapon.fire. rewrite Hcan. cbn [negb snd].
  eexists. split.
  { unfold Game.play, Game.addEntity. cbn [Game.entities].
    apply projectiles_app. }
  unfold Projectile.new.
  cbn [Projectile.damage Projectile.lifetime Projectile.age Projectile.owner
       Projectile.base Projectile.o_damage Projectile.o_lifetime
       Projectile.o_owner Projectile.o_rotation Projectile.o_physics
       Weapon.damage Weapon.projectileLifetime
       Entity.new Entity.setPhysics Entity.rotation Entity.x Entity.y
       Entity.type Entity.alive Entity.physics Entity.o_rotation
       Entity.o_type Entity.o_physics option_map].
  rewrite !or_given by assumption. rewrite or_self.
  repeat split.
  cbv [createPhysicsComponent Projectile.defaultPhysics
       PhysicsComponent.setVelocity PhysicsComponent.collisionRadius
       PhysicsComponent.o_collisionRadius].
  rewrite or_given by lra. reflexivity.
Qed.

Lemma blaster_projectile_witness :
  exists p,
    Game.projectiles
      (Game.entities (snd (Blaster.fire scoutBlaster driftingScout 2000
                             emptyGame)))
    = Game.projectiles (Game.entities emptyGame) ++ [p]
    /\ Projectile.damage p = Weapon.damage scoutBlaster
    /\ Projectile.owner p = Some (entity driftingScout).
Proof.
  destruct (blaster_projectile scoutBlaster driftingScout 2000 emptyGame)
    as (p & H1 & H2 & _ & _ & H5 & _).
  - cbv [scoutBlaster Blaster.new Weapon.new spread Weapon.canFire
         Weapon.fireRate Weapon.lastFired Weapon.o_fireRate].
    rewrite or_given by lra. rdec; reflexivity.
  - apply or_nonzero. lra.
  - apply or_nonzero. lra.
  - exists p. repeat split; assumption.
Defined.

(** A blaster that can fire adds exactly one projectile and stamps the time;
    until [fireRate] has passed since then, and whenever it cannot fire, a
    further call changes nothing. *)
Theorem blaster_rate_limit (this : Weapon.t) (owner owner' : Owner)
  (now later : R) (game : Game.t) :
  (Weapon.canFire this now = true ->
   let r := Blaster.fire this owner now game in
   length (velocities (snd r)) = S (length (velocities game))
   /\ Weapon.lastFired (fst r) = now
   /\ (later - now < Weapon.fireRate this ->
       Blaster.fire (fst r) owner' later (snd r) = r))
  /\ (Weapon.canFire this now = false ->
      Blaster.fire this owner now game = (this, game)).
Proof.
  split.
  - intros Hcan r.
    assert (Hfst : fst r = Weapon.fire this now
                   /\ length (velocities (snd r))
                      = S (length (velocities game))).
    { subst r. unfold Blaster.fire. rewrite Hcan. cbn [negb fst snd].
      rewrite velocities_added, length_app. cbn [length].
      split; [reflexivity | lia]. }
    destruct Hfst as [Hfst Hlen].
    assert (Hstamp : Weapon.lastFired (fst r) = now
                     /\ Weapon.fireRate (fst r) = Weapon.fireRate this).
    { rewrite Hfst. unfold Weapon.fire. rewrite Hcan. split; reflexivity. }
    destruct Hstamp as [Hlast Hrate].
    split; [exact Hlen|]. split; [exact Hlast|].
    intros Hsoon. unfold Blaster.fire, Weapon.canFire.
    rewrite Hlast, Hrate.
    destruct (Rge_dec (later - now) (Weapon.fireRate this)) as [Hge|_];
      [exfalso; lra|].
    cbn [negb]. symmetry. apply surjective_pairing.
  - intros Hcannot. unfold Blaster.fire. rewrite Hcannot. reflexivity.
Qed.

Lemma blaster_rate_limit_witness :
  let r := Blaster.fire scoutBlaster driftingScout 2000 emptyGame in
  length (velocities (snd r)) = S (length (velocities emptyGame))
  /\ Weapon.lastFired (fst r) = 2000
  /\ (3000 - 2000 < Weapon.fireRate scoutBlaster ->
      Blaster.fire (fst r) driftingScout 3000 (snd r) = r).
Proof.
  apply (proj1 (blaster_rate_limit scoutBlaster driftingScout driftingScout
                  2000 3000 emptyGame)).
  cbv [scoutBlaster Blaster.new Weapon.new spread Weapon.canFire
       Weapon.fireRate Weapon.lastFired Weapon.o_fireRate].
  rewrite or_given by lra. rdec; reflexivity.
Defined.

(** ** Asteroids *)

Lemma polar_magnitude (angle r : R) :
  0 <= r ->
  Utils.vector.magnitude (Vec.mk (cos angle * r) (sin angle * r)) = r.
Proof.
  intros Hr. unfold Utils.vector.magnitude. cbn [Vec.x Vec.y].
  replace (cos angle * r * (cos angle * r) + sin angle * r * (sin angle * r))
    with (r * r * (Rsqr (sin angle) + Rsqr (cos angle)))
    by (unfold Rsqr; ring).
  rewrite sin2_cos2, Rmult_1_r. apply sqrt_square, Hr.
Qed.

Lemma getSizeData_maxVelocity (size : string) :
  60 < Asteroid.sd_maxVelocity (Asteroid.getSizeData size).
Proof.
  unfold Asteroid.getSizeData.
  destruct (String.eqb size "large"); [cbn; lra|].
  destruct (String.eqb size "medium"); [cbn; lra|].
  destruct (String.eqb size "small"); cbn; lra.
Qed.

(** A body with no accumulated force and damping 1 keeps its velocity
    through a step when its speed is within its maximum velocity. *)
Lemma updateEntity_keeps_velocity (this : PhysicsEngine.t) (e : Entity.t)
  (p : PhysicsComponent.t) (deltaTime : R) :
  Entity.physics e = Some p ->
  PhysicsComponent.force p = Vec.zero ->
  PhysicsComponent.damping p = 1 ->
  (forall m, PhysicsComponent.maxVelocity p = Some m ->
             Utils.vector.magnitude (PhysicsComponent.velocity p) <= m) ->
  velocityOf (PhysicsEngine.updateEntity this e deltaTime)
  = PhysicsComponent.velocity p.
Proof.
  intros Hp Hf Hd Hcap.
  unfold PhysicsEngine.updateEntity, velocityOf. rewrite Hp, Hf, Hd.
  rewrite or_given by lra.
  destruct (PhysicsComponent.velocity p) as [vx vy] eqn:Hv.
  cbn [Vec.x Vec.y Vec.zero] in *.
  assert (Hx : (vx + 0 / PhysicsComponent.mass p * (deltaTime / 1000)) * 1
               = vx) by (unfold Rdiv; ring).
  assert (Hy : (vy + 0 / PhysicsComponent.mass p * (deltaTime / 1000)) * 1
               = vy) by (unfold Rdiv; ring).
  rewrite Hx, Hy.
  cbn [Entity.setPhysics Entity.physics PhysicsComponent.setForce
       PhysicsComponent.setVelocity PhysicsComponent.velocity].
  destruct (PhysicsComponent.maxVelocity p) as [m|]; [|reflexivity].
  specialize (Hcap m eq_refl).
  destruct (JS.truthy m); [|reflexivity].
  destruct (Rgt_dec _ m) as [Hfast|_]; [exfalso; lra | reflexivity].
Qed.

(** An asteroid of one of the three sizes is built with the health of its
    size and, having no damping and a maximum velocity above the speed it
    starts with, keeps its velocity through every step in which no force
    acts on it. *)
Theorem asteroid_keeps_velocity (x y : R) (size : string) (s : RandState)
  (this : PhysicsEngine.t) (deltaTime : R) :
  fair s -> In size ["large"; "medium"; "small"]%string ->
  let a := fst (Asteroid.new x y size s) in
  velocityOf (PhysicsEngine.updateEntity this (Asteroid.base a) deltaTime)
  = velocityOf (Asteroid.base a)
  /\ Entity.health (Asteroid.base a)
     = Some (HealthComponent.mk
               (Asteroid.sd_health (Asteroid.getSizeData size))
               (Asteroid.sd_health (Asteroid.getSizeData size)) false 0).
Proof.
  intros Hfair _ a. subst a.
  unfold Asteroid.new. rewrite !bind_run. cbn [ret fst].
  set (s1 := snd (Utils.random (-2) 2 s)).
  set (s2 := snd (Asteroid.generateShape _ s1)).
  set (s3 := snd (Utils.random 0 (PI * 2) s2)).
  assert (Hfair3 : fair s3).
  { subst s3 s2 s1.
    repeat first [ apply keepsSource_fair
                 | apply keepsSource_Utils_random
                 | apply keepsSource_generateShape
                 | exact Hfair ]. }
  destruct (random_in_range 20 60 s3 Hfair3 ltac:(lra)) as [Hspeed Hlt].
  specialize (Hlt ltac:(lra)).
  set (speed := fst (Utils.random 20 60 s3)) in *.
  set (angle := fst (Utils.random 0 (PI * 2) s2)).
  pose proof (getSizeData_maxVelocity size) as Hmv.
  cbn [Asteroid.base].
  match goal with
  | |- context [velocityOf ?e] =>
    match e with
    | Entity.setPhysics _ _ => set (e0 := e)
    end
  end.
  set (v := Vec.mk (cos angle * speed) (sin angle * speed)) in *.
  set (opts := PhysicsComponent.mkOptions
                 (Some (Asteroid.sd_mass (Asteroid.getSizeData size)))
                 (Some 1)
                 (Some (Asteroid.sd_maxVelocity (Asteroid.getSizeData size)))
                 (Some (Asteroid.sd_radius (Asteroid.getSizeData size)))
                 None None None) in *.
  assert (Hp : Entity.physics e0
               = Some (PhysicsComponent.setVelocity
                         (createPhysicsComponent opts) v)) by reflexivity.
  assert (Hv : velocityOf e0 = v) by reflexivity.
  assert (Hmag : Utils.vector.magnitude v = speed)
    by (apply polar_magnitude; lra).
  rewrite Hv.
  split.
  - apply (updateEntity_keeps_velocity this e0 _ deltaTime Hp).
    + reflexivity.
    + cbn [PhysicsComponent.damping PhysicsComponent.setVelocity
           createPhysicsComponent PhysicsComponent.o_damping opts].
      apply or_given. lra.
    + intros m.
      cbn [PhysicsComponent.maxVelocity PhysicsComponent.setVelocity
           createPhysicsComponent PhysicsComponent.o_maxVelocity JS.orNull
           PhysicsComponent.velocity opts].
      destruct (Req_dec_T _ 0) as [Hz|_]; [discriminate|].
      intros H. injection H as <-. rewrite Hmag. lra.
  - subst e0.
    cbn [Entity.setPhysics Entity.health Entity.new Entity.o_health
         option_map].
    rewrite or_given; [reflexivity|].
    unfold Asteroid.getSizeData.
    destruct (String.eqb size "large"); [cbn; lra|].
    destruct (String.eqb size "medium"); [cbn; lra|].
    destruct (String.eqb size "small"); cbn; lra.
Qed.

Lemma asteroid_keeps_velocity_witness :
  velocityOf (PhysicsEngine.updateEntity (PhysicsEngine.new 800 600)
                (Asteroid.base largeAsteroid) 16)
  = velocityOf (Asteroid.base largeAsteroid).
Proof.
  apply (proj1 (asteroid_keeps_velocity 400 300 "large" halves
                  (PhysicsEngine.new 800 600) 16
                  ltac:(intros n; cbn [halves source]; lra)
                  ltac:(left; reflexivity))).
Defined.

(** ** The game loop *)

(** For entities carrying the type tags of the source, the handler
    [handleCollision] picks, and the role each entity plays in it, do not
    depend on the order of the pair (a bounce takes the pair in the order
    given).  A projectile meets no handler with the player, with another
    projectile or with a pickup, whoever fired it, and a pickup meets a
    handler with the player only. *)
Theorem handleCollision_dispatch {A : Type} (type : A -> string)
  (e1 e2 : A) :
  In (type e1) typeTags -> In (type e2) typeTags ->
  GameLoop.handleCollision type e2 e1
  = match GameLoop.handleCollision type e1 e2 with
    | bounce a b => bounce b a
    | other => other
    end
  /\ (type e1 = "projectile"%string ->
      type e2 = "player"%string \/ type e2 = "projectile"%string
      \/ type e2 = "pickup"%string ->
      GameLoop.handleCollision type e1 e2 = noInteraction)
  /\ (type e1 = "pickup"%string -> type e2 <> "player"%string ->
      GameLoop.handleCollision type e1 e2 = noInteraction)
  /\ (type e1 = "player"%string ->
      type e2 = "asteroid"%string \/ type e2 = "enemy"%string ->
      GameLoop.handleCollision type e1 e2 = playerHit e1 e2)
  /\ (type e1 = "projectile"%string ->
      type e2 = "asteroid"%string \/ type e2 = "enemy"%string ->
      GameLoop.handleCollision type e1 e2 = projectileHit e1 e2).
Proof.
  intros H1 H2. unfold typeTags in H1, H2. cbn [In] in H1, H2.
  unfold GameLoop.handleCollision.
  repeat match goal with
  | H : _ \/ _ |- _ => destruct H as [H|H]
  | H : False |- _ => destruct H
  end;
    rewrite <- H1, <- H2; cbv -[not];
    (split; [reflexivity|]);
    repeat split; intros Ha Hb;
    repeat match goal with
    | H : _ \/ _ |- _ => destruct H as [H|H]
    end;
    try reflexivity; try discriminate; try (exfalso; apply Hb; reflexivity).
Qed.

Lemma handleCollision_dispatch_witness :
  GameLoop.handleCollision (fun t : string => t) "projectile"%string
    "player"%string
  = noInteraction.
Proof.
  destruct (handleCollision_dispatch (fun t : string => t)
              "projectile"%string "player"%string) as (_ & H & _).
  - cbv [typeTags In]. tauto.
  - cbv [typeTags In]. tauto.
  - apply H; [reflexivity | left; reflexivity].
Defined.


Lemma Asteroid_new_type (x y : R) (size : string) (s : RandState) :
  Entity.type (Asteroid.base (fst (Asteroid.new x y size s)))
  = "asteroid"%string.
Proof.
  unfold Asteroid.new. rewrite !bind_run. reflexivity.
Qed.

Lemma EnemyFactory_create_fields (type : option string) (x y : R) :
  let e := EnemyFactory.create type x y in
  In (Enemy.className e)
     ["ScoutSaucer"; "HunterDrone"; "MarauderFrigate"]%string
  /\ Entity.type (Enemy.base e) = "enemy"%string
  /\ Entity.x (Enemy.base e) = x
  /\ Entity.y (Enemy.base e) = y.
Proof.
  unfold EnemyFactory.create.
  destruct type as [t|];
    [destruct (String.eqb t "scout_saucer");
     [|destruct (String.eqb t "hunter_drone");
       [|destruct (String.eqb t "marauder_frigate")]]|];
    cbv [ScoutSaucer.new HunterDrone.new MarauderFrigate.new Enemy.new
         Enemy.className Enemy.base Entity.new Entity.type Entity.x Entity.y
         Entity.o_type In String.eqb Ascii.eqb Bool.eqb];
    tauto.
Qed.

(** [startNextWave] moves to the next wave and adds first [2 + wave] large
    asteroids (for the new wave number), each on the left or the right edge
    of the canvas, then from the second wave on [floor(wave / 2)] enemies
    of the three classes, each on the top or the bottom edge; the wave it
    has started is not complete. *)
Theorem startNextWave_spawns (wave : Z) (width height : R) (s : RandState) :
  fair s -> (0 <= wave)%Z -> 0 <= width -> 0 <= height ->
  let r := fst (GameLoop.startNextWave wave width height s) in
  fst r = (wave + 1)%Z
  /\ (exists asteroids enemies,
        snd r = asteroids ++ enemies
        /\ length asteroids = Z.to_nat (2 + (wave + 1))
        /\ length enemies
           = (if (wave + 1 >? 1)%Z then Z.to_nat ((wave + 1) / 2) else 0%nat)
        /\ Forall (asteroidOnSide width height) asteroids
        /\ Forall (enemyOnSide width height) enemies)
  /\ GameLoop.isWaveComplete (map GameLoop.spawnType (snd r)) = false.
Proof.
  intros Hfair Hwave Hwidth Hheight r. subst r.
  unfold GameLoop.startNextWave. rewrite !bind_run. cbn [ret fst snd].
  set (bodyA := fun _ : nat =>
    r1 <- Math_random ;;
    r2 <- Math_random ;;
    a <- Asteroid.new (if Rgt_dec r1 0.5 then 0 else width) (r2 * height)
           "large" ;;
    ret (SAsteroid a)).
  set (bodyE := fun _ : nat =>
    r1 <- Math_random ;;
    r2 <- Math_random ;;
    type <- EnemyFactory.getRandomType ;;
    ret (SEnemy (EnemyFactory.create type (r1 * width)
                   (if Rgt_dec r2 0.5 then 0 else height)))).
  assert (HkeepA : forall i, keepsSource (bodyA i)).
  { intros i. unfold bodyA.
    apply keepsSource_bind; [apply keepsSource_random|]. intros r1.
    apply keepsSource_bind; [apply keepsSource_random|]. intros r2.
    apply keepsSource_bind; [apply keepsSource_Asteroid_new|]. intros a.
    apply keepsSource_ret. }
  assert (HkeepE : forall i, keepsSource (bodyE i)).
  { intros i. unfold bodyE.
    apply keepsSource_bind; [apply keepsSource_random|]. intros r1.
    apply keepsSource_bind; [apply keepsSource_random|]. intros r2.
    apply keepsSource_bind.
    - unfold EnemyFactory.getRandomType, Utils.randomChoice.
      apply keepsSource_bind; [apply keepsSource_random|]. intros r3.
      apply keepsSource_ret.
    - intros type. apply keepsSource_ret. }
  assert (HA : forall i s', fair s' ->
    asteroidOnSide width height (fst (bodyA i s'))).
  { intros i s' Hfair'. unfold bodyA. rewrite !bind_run. cbn [ret fst].
    unfold asteroidOnSide.
    match goal with
    | |- context [Asteroid.new ?x ?y ?sz ?st] =>
      destruct (Asteroid_new_fields x y sz st) as (Hx & Hy & Hs & _);
      pose proof (Asteroid_new_type x y sz st) as Ht
    end.
    rewrite Hx, Hy, Hs, Ht.
    split; [reflexivity|]. split; [reflexivity|]. split.
    - destruct (Rgt_dec _ 0.5); [left | right]; reflexivity.
    - assert (Hfair2 : fair (snd (Math_random s')))
        by (apply keepsSource_fair; [apply keepsSource_random | exact Hfair']).
      pose proof (Hfair2 (next (snd (Math_random s')))) as Hr2.
      cbn [Math_random fst snd source next] in *. nra. }
  assert (HE : forall i s', fair s' ->
    enemyOnSide width height (fst (bodyE i s'))).
  { intros i s' Hfair'. unfold bodyE. rewrite !bind_run. cbn [ret fst].
    unfold enemyOnSide.
    match goal with
    | |- context [EnemyFactory.create ?t ?x ?y] =>
      destruct (EnemyFactory_create_fields t x y) as (Hc & Ht & Hx & Hy)
    end.
    rewrite Hx, Hy, Ht.
    split; [exact Hc|]. split; [reflexivity|]. split.
    - destruct (Rgt_dec _ 0.5); [left | right]; reflexivity.
    - pose proof (Hfair' (next s')) as Hr1.
      cbn [Math_random fst snd source next] in *. nra. }
  set (s1 := snd (pushLoop (Z.to_nat (2 + (wave + 1))) 0 bodyA s)).
  assert (Hfair1 : fair s1)
    by (apply keepsSource_fair;
        [apply keepsSource_pushLoop, HkeepA | exact Hfair]).
  assert (HallA : Forall (asteroidOnSide width height)
            (fst (pushLoop (Z.to_nat (2 + (wave + 1))) 0 bodyA s)))
    by (apply pushLoop_Forall_fair; assumption).
  assert (HlenA : length (fst (pushLoop (Z.to_nat (2 + (wave + 1))) 0
                                 bodyA s))
                  = Z.to_nat (2 + (wave + 1)))
    by apply pushLoop_length.
  split; [reflexivity|]. split.
  - eexists. eexists. split; [reflexivity|].
    split; [exact HlenA|]. split; [|split; [exact HallA|]].
    + destruct (wave + 1 >? 1)%Z; [apply pushLoop_length | reflexivity].
    + destruct (wave + 1 >? 1)%Z; [|constructor].
      apply pushLoop_Forall_fair; assumption.
  - destruct (fst (pushLoop (Z.to_nat (2 + (wave + 1))) 0 bodyA s))
      as [|sp rest].
    + exfalso. cbn [length] in HlenA. lia.
    + inversion HallA as [|? ? Hsp _]. subst.
      destruct sp as [a|e]; [|destruct Hsp].
      destruct Hsp as (_ & Htype & _).
      cbn [app map GameLoop.isWaveComplete forallb GameLoop.spawnType].
      rewrite Htype. reflexivity.
Qed.

Lemma startNextWave_spawns_witness :
  let r := fst (GameLoop.startNextWave 0 800 600 halves) in
  fst r = 1%Z
  /\ GameLoop.isWaveComplete (map GameLoop.spawnType (snd r)) = false.
Proof.
  destruct (startNextWave_spawns 0 800 600 halves) as (H1 & _ & H3).
  - intros n. cbn [halves source]. lra.
  - lia.
  - lra.
  - lra.
  - split; [exact H1 | exact H3].
Defined.

(** A hit that kills the player (no shield left, 25 points of health or
    less, not invulnerable) costs one life.  With no life left the game is
    over.  Otherwise the player is put back at the centre of the canvas, at
    rest, with full health and 3000 ms of invulnerability, and its [alive]
    flag stays false: nothing sets it again after [destroy] has cleared
    it. *)
Theorem playerHit_respawn (this : GameLoop.t) (h : HealthComponent.t)
  (width height now : R) :
  Entity.health (PlayerShield.base (GameLoop.player this)) = Some h ->
  HealthComponent.invulnerable h = false ->
  Shield.current (PlayerShield.shield (GameLoop.player this)) <= 0 ->
  HealthComponent.current h <= 25 ->
  let r := GameLoop.playerHit this width height now in
  let e := PlayerShield.base (GameLoop.player r) in
  GameLoop.lives r = (GameLoop.lives this - 1)%Z
  /\ Entity.alive e = false
  /\ ((GameLoop.lives this <= 1)%Z -> GameLoop.state r = "gameover"%string)
  /\ ((1 < GameLoop.lives this)%Z ->
      GameLoop.state r = GameLoop.state this
      /\ Entity.x e = width / 2
      /\ Entity.y e = height / 2
      /\ option_map PhysicsComponent.velocity (Entity.physics e)
         = option_map (fun _ => Vec.zero)
             (Entity.physics (PlayerShield.base (GameLoop.player this)))
      /\ Entity.health e
         = Some (HealthComponent.mk (HealthComponent.max h)
                   (HealthComponent.max h) true 3000)).
Proof.
  intros Hh Hinv Hshield Hlow r e. subst e r.
  unfold GameLoop.playerHit, PlayerShield.takeDamage.
  destruct (Rgt_dec (Shield.current (PlayerShield.shield
                                       (GameLoop.player this))) 0)
    as [Hup|_]; [exfalso; lra|].
  unfold Entity.takeDamage. rewrite Hh, Hinv.
  destruct (Rle_dec (HealthComponent.current h - 25) 0) as [_|Hn];
    [|exfalso; lra].
  unfold GameLoop.playerDestroyed.
  cbn [GameLoop.lives GameLoop.state GameLoop.player PlayerShield.base
       PlayerShield.shield].
  destruct (Z.leb_spec (GameLoop.lives this - 1) 0) as [Hover|Hleft];
    cbn [GameLoop.lives GameLoop.state GameLoop.player PlayerShield.base
         PlayerShield.shield].
  - split; [reflexivity|]. split; [reflexivity|].
    split; [reflexivity | intros Hmore; exfalso; lia].
  - split; [reflexivity|].
    unfold withVelocityZero, Entity.heal.
    cbn [Entity.destroy Entity.setAlive Entity.setHealth Entity.setPosition
         Entity.setPhysics Entity.health Entity.alive Entity.x Entity.y
         Entity.physics HealthComponent.current HealthComponent.max
         HealthComponent.invulnerable HealthComponent.invulnerabilityTime].
    split; [reflexivity|]. split; [intros Hlast; exfalso; lia|].
    intros _. split; [reflexivity|]. split; [reflexivity|].
    split; [reflexivity|]. split.
    + destruct (Entity.physics (PlayerShield.base (GameLoop.player this)));
        reflexivity.
    + unfold Rmin. destruct (Rle_dec _ _); do 2 f_equal; lra.
Qed.

Lemma playerHit_respawn_witness :
  let this := GameLoop.mk 3 "playing"
                (PlayerShield.mk (Shield.mk 0 50 10 2000 0 true) wounded) in
  Entity.alive
    (PlayerShield.base (GameLoop.player (GameLoop.playerHit this 800 600 0)))
  = false.
Proof.
  refine (proj1 (proj2 (playerHit_respawn
            (GameLoop.mk 3 "playing"
               (PlayerShield.mk (Shield.mk 0 50 10 2000 0 true) wounded))
            (HealthComponent.mk 10 100 false 0) 800 600 0
            eq_refl eq_refl _ _)));
    cbv [GameLoop.player PlayerShield.shield Shield.current
         HealthComponent.current]; lra.
Defined.
